(** * transcribe.py: SRT subtitles from Whisper segments

    A shallow embedding of [src/transcribe.py] and of the parts of the
    Python runtime it calls ([str], [float], [datetime.timedelta],
    [os.path.splitext], text files), followed by the properties of
    [srt_timestamp], [write_srt] and [main].

    - A Python [str] is its list of Unicode code points.
    - A Python [float] is an IEEE 754 binary64 value, as the standard
      library's [spec_float] with [prec = 53] and [emax = 1024].
    - A Python [int] is a [Z].
    - Exceptions are values of [exn]; code that can raise returns [res].
    - Code that touches the outside world (files, the two output streams,
      the Whisper engine) runs in the state and exception monad [M]. *)

From Stdlib Require Import ZArith Lia List String Ascii.
From Stdlib Require Import Floats.SpecFloat.
From stdpp Require Import gmap strings list.

Local Open Scope Z_scope.

(** ** Exceptions *)

Inductive exn :=
| TypeError
| ValueError
| OverflowError
| ZeroDivisionError
| AttributeError
| OSError
| SystemExit (code : Z).

Inductive res (A : Type) :=
| Ok (a : A)
| Raise (e : exn).
Arguments Ok {A} a.
Arguments Raise {A} e.

Definition res_bind {A B} (r : res A) (f : A -> res B) : res B :=
  match r with
  | Ok a => f a
  | Raise e => Raise e
  end.

Declare Scope res_scope.
Delimit Scope res_scope with res.
Notation "'let?' x := c1 'in' c2" := (res_bind c1 (fun x => c2))
  (at level 10, x pattern, c1 at level 100, c2 at level 200) : res_scope.
Local Open Scope res_scope.

(** ** Python [str] *)

(** A string is the list of its code points. *)
Abbreviation pystr := (list N).

(** The code points of an ASCII literal. *)
Definition lit (s : string) : pystr :=
  List.map N_of_ascii (list_ascii_of_string s).

Definition nl : pystr := [10%N].
Definition space : N := 32%N.

(** [str.isspace] on one character: CPython's [_PyUnicode_IsWhitespace]. *)
Definition is_space (c : N) : bool :=
  ((9 <=? c) && (c <=? 13) || (28 <=? c) && (c <=? 32)
   || (c =? 133) || (c =? 160) || (c =? 5760)
   || (8192 <=? c) && (c <=? 8202)
   || (c =? 8232) || (c =? 8233) || (c =? 8239) || (c =? 8287)
   || (c =? 12288))%N.

Fixpoint lstrip (s : pystr) : pystr :=
  match s with
  | c :: s' => if is_space c then lstrip s' else s
  | [] => []
  end.

Definition rstrip (s : pystr) : pystr := rev (lstrip (rev s)).

(** [s.strip()] *)
Definition str_strip (s : pystr) : pystr := rstrip (lstrip s).

Fixpoint starts_with (p s : pystr) : bool :=
  match p, s with
  | [], _ => true
  | a :: p', b :: s' => (a =? b)%N && starts_with p' s'
  | _ :: _, [] => false
  end.

(** Left-to-right scan of [s.replace(old, new)] for a non-empty [old]:
    at a match emit [new] and skip the match, otherwise copy one character. *)
Fixpoint replace_scan (fuel : nat) (old new s : pystr) : pystr :=
  match fuel with
  | O => s
  | S fuel' =>
      match s with
      | [] => []
      | c :: s' =>
          if starts_with old s
          then new ++ replace_scan fuel' old new (drop (length old) s)
          else c :: replace_scan fuel' old new s'
      end
  end.

(** [s.replace(old, new)]; with an empty [old], [new] goes before every
    character and at the end. *)
Definition str_replace (old new s : pystr) : pystr :=
  match old with
  | [] => new ++ flat_map (fun c => c :: new) s
  | _ :: _ => replace_scan (length s) old new s
  end.

(** *** Decimal numerals *)

Definition digit_char (d : Z) : N := (48 + Z.to_N d)%N.

Definition is_digit (c : N) : bool := ((48 <=? c) && (c <=? 57))%N.

Fixpoint dec_digits (fuel : nat) (n : Z) (acc : pystr) : pystr :=
  let acc' := digit_char (n mod 10) :: acc in
  match fuel with
  | O => acc'
  | S fuel' => if n / 10 =? 0 then acc' else dec_digits fuel' (n / 10) acc'
  end.

(** The decimal numeral of a natural number, no leading zero. *)
Definition str_of_nat (n : Z) : pystr :=
  dec_digits (Z.to_nat (Z.log2 n)) n [].

(** [str(n)] for an int. *)
Definition str_of_int (n : Z) : pystr :=
  if n <? 0 then lit "-" ++ str_of_nat (- n) else str_of_nat n.

Definition zfill (w : nat) (s : pystr) : pystr :=
  replicate (w - length s)%nat 48%N ++ s.

(** [format(n, '0wd')]: zero padding goes after the sign. *)
Definition format_0d (w : nat) (n : Z) : pystr :=
  if n <? 0 then lit "-" ++ zfill (w - 1) (str_of_nat (- n))
  else zfill w (str_of_nat n).

(** The number a string of decimal digits denotes. *)
Definition dec_value (s : pystr) : Z :=
  fold_left (fun acc c => acc * 10 + (Z.of_N c - 48)) s 0.

Definition all_digits (s : pystr) : bool := forallb is_digit s.

(** ** Python [float]: IEEE 754 binary64 *)

Abbreviation float := spec_float.

Definition prec : Z := 53.
Definition emax : Z := 1024.

Definition f_zero : float := S754_zero false.

(** The float nearest to an int (round half to even). *)
Definition float_of_int (z : Z) : float := binary_normalize prec emax z 0 false.

(** The float nearest to the rational [a / b], [b > 0]: how a decimal
    literal such as [0.6] or [3661.234] is read ([a], [b] = 6, 10). *)
Definition float_of_ratio (a b : Z) : float :=
  match a with
  | 0 => S754_zero false
  | _ =>
      let '(q, e, l) := SFdiv_core_binary prec emax (Z.abs a) 0 b 0 in
      binary_round_aux prec emax (a <? 0) q e l
  end.

Definition f_add : float -> float -> float := SFadd prec emax.
Definition f_mul : float -> float -> float := SFmul prec emax.
Definition f_ltb : float -> float -> bool := SFltb.

Definition is_nan (x : float) : bool :=
  match x with S754_nan => true | _ => false end.

(** A float as Python holds it: in canonical form. *)
Definition is_float (x : float) : bool := valid_binary prec emax x.

(** [a / b] on ints: the correctly rounded quotient. *)
Definition int_truediv (a b : Z) : res float :=
  if b =? 0 then Raise ZeroDivisionError
  else if a =? 0 then Ok (S754_zero (b <? 0))
  else
    let '(q, e, l) := SFdiv_core_binary prec emax (Z.abs a) 0 (Z.abs b) 0 in
    match binary_round_aux prec emax (xorb (a <? 0) (b <? 0)) q e l with
    | S754_infinity _ => Raise OverflowError
    | f => Ok f
    end.

(** A sign, an integer magnitude and an exponent as a float; exact when the
    magnitude has at most [prec] bits. *)
Definition float_of_parts (s : bool) (m : Z) (e : Z) : float :=
  match m with
  | Zpos p => binary_round prec emax s p e
  | _ => S754_zero s
  end.

(** [math.modf(x)]: the fractional and the integer part, both with the sign
    of [x]. *)
Definition modf (x : float) : float * float :=
  match x with
  | S754_nan => (S754_nan, S754_nan)
  | S754_infinity s => (S754_zero s, S754_infinity s)
  | S754_zero s => (S754_zero s, S754_zero s)
  | S754_finite s m e =>
      if 0 <=? e then (S754_zero s, x)
      else
        (float_of_parts s (Z.land (Zpos m) (Z.ones (- e))) e,
         float_of_parts s (Z.shiftr (Zpos m) (- e)) 0)
  end.

(** [int(x)] on a float: truncation towards zero. *)
Definition int_of_float (x : float) : res Z :=
  match x with
  | S754_nan => Raise ValueError
  | S754_infinity _ => Raise OverflowError
  | S754_zero _ => Ok 0
  | S754_finite s m e =>
      Ok (cond_Zopp s (if 0 <=? e then Z.shiftl (Zpos m) e
                       else Z.shiftr (Zpos m) (- e)))
  end.

(** [round(x)] on a float, one argument: the nearest int, ties to even. *)
Definition float_round (x : float) : res Z :=
  match x with
  | S754_nan => Raise ValueError
  | S754_infinity _ => Raise OverflowError
  | S754_zero _ => Ok 0
  | S754_finite s m e =>
      if 0 <=? e then Ok (cond_Zopp s (Z.shiftl (Zpos m) e))
      else
        let q := Z.shiftr (Zpos m) (- e) in
        let r := Z.land (Zpos m) (Z.ones (- e)) in
        let h := Z.shiftl 1 (- e - 1) in
        let up := (h <? r) || ((r =? h) && Z.odd q) in
        Ok (cond_Zopp s (if up then q + 1 else q))
  end.

(** ** Python values *)

(** The values a segment field holds. *)
Inductive pyval :=
| VNone
| VInt (z : Z)
| VFloat (f : float)
| VStr (s : pystr).

(** [x < 0] *)
Definition lt_zero (x : pyval) : res bool :=
  match x with
  | VInt z => Ok (z <? 0)
  | VFloat f => Ok (f_ltb f f_zero)
  | VNone | VStr _ => Raise TypeError
  end.

(** ** [datetime.timedelta] *)

Record timedelta := Timedelta { td_days : Z; td_seconds : Z; td_microseconds : Z }.

(** [datetime.timedelta(seconds=x)], every other argument left at its
    default [0]; after the reference implementation in CPython's
    [Lib/_pydatetime.py], whose steps the comments quote (the C
    implementation returns the same values and raises on the same
    inputs). *)
Definition timedelta_of_seconds (x : pyval) : res timedelta :=
  (* seconds += minutes*60 + hours*3600 *)
  let? sec := match x with
              | VInt z => Ok (VInt z)
              | VFloat f => Ok (VFloat (f_add f (float_of_int 0)))
              | VNone | VStr _ => Raise TypeError
              end in
  (* days is an int: daysecondsfrac = 0.0 *)
  let daysecondsfrac := f_zero in
  (* if isinstance(seconds, float):
         secondsfrac, seconds = math.modf(seconds); seconds = int(seconds)
         secondsfrac += daysecondsfrac
     else: secondsfrac = daysecondsfrac *)
  let? parts :=
    match sec with
    | VFloat f =>
        let '(fr, ip) := modf f in
        let? n := int_of_float ip in
        Ok (f_add fr daysecondsfrac, n)
    | VInt z => Ok (daysecondsfrac, z)
    | _ => Raise TypeError
    end in
  let '(secondsfrac, seconds) := parts in
  (* days, seconds = divmod(seconds, 24*3600); d += days; s += int(seconds) *)
  let d := seconds / 86400 in
  let s := seconds mod 86400 in
  (* usdouble = secondsfrac * 1e6 *)
  let usdouble := f_mul secondsfrac (float_of_int 1000000) in
  (* microseconds is the int 0: microseconds = round(microseconds + usdouble) *)
  let? microseconds := float_round (f_add (float_of_int 0) usdouble) in
  (* seconds, us = divmod(microseconds, 1000000); s += seconds
     days, s = divmod(s, 24*3600); d += days *)
  let us := microseconds mod 1000000 in
  let s := s + microseconds / 1000000 in
  let d := d + s / 86400 in
  let s := s mod 86400 in
  (* if abs(d) > 999999999: raise OverflowError *)
  if 999999999 <? Z.abs d then Raise OverflowError
  else Ok (Timedelta d s us).

(** [td.total_seconds()] *)
Definition total_seconds (td : timedelta) : res float :=
  int_truediv ((td_days td * 86400 + td_seconds td) * 1000000
               + td_microseconds td) 1000000.

(** ** [os.path.splitext] (POSIX) *)

Fixpoint rfind_from (i : Z) (c : N) (s : pystr) (found : Z) : Z :=
  match s with
  | [] => found
  | a :: s' => rfind_from (i + 1) c s' (if (a =? c)%N then i else found)
  end.

(** [s.rfind(c)]: the last index of [c], or [-1]. *)
Definition rfind (c : N) (s : pystr) : Z := rfind_from 0 c s (-1).

(** [genericpath._splitext(p, '/', None, '.')]: the extension starts at the
    last dot of the last path component, unless only dots come before it. *)
Definition splitext (p : pystr) : pystr * pystr :=
  let sepIndex := rfind 47%N p in
  let dotIndex := rfind 46%N p in
  if sepIndex <? dotIndex then
    let before := take (Z.to_nat (dotIndex - (sepIndex + 1)))
                       (drop (Z.to_nat (sepIndex + 1)) p) in
    if existsb (fun c => negb (c =? 46)%N) before
    then (take (Z.to_nat dotIndex) p, drop (Z.to_nat dotIndex) p)
    else (p, [])
  else (p, []).

(** ** The outside world *)

(** A segment is a dict from field names to values. *)
Abbreviation segment := (gmap string pyval).

(** [seg.get(key, default)] *)
Definition seg_get (seg : segment) (key : string) (dflt : pyval) : pyval :=
  default dflt (seg !! key).

(** The keyword arguments of [model.transcribe]. *)
Record transcribe_kwargs := {
  kw_task : pystr;
  kw_language : option pystr;
  kw_fp16 : bool;
  kw_temperature : float;
  kw_no_speech_threshold : float;
  kw_logprob_threshold : float;
  kw_compression_ratio_threshold : float;
  kw_condition_on_previous_text : bool
}.

(** What [model.transcribe] returns: a dict of which the program reads the
    keys ["segments"] and ["language"]; [None] stands for an absent key and,
    for the language, also for the value [None]. *)
Record transcription := {
  tr_segments : option (list segment);
  tr_language : option pystr
}.

Record whisper_model := { wm_name : pystr; wm_device : option pystr }.

(** What the program asks of its environment: the file system's answers and
    the Whisper engine. *)
Record env := {
  isfile : pystr -> bool;
  can_open_w : pystr -> bool;
  load_model : pystr -> option pystr -> res whisper_model;
  transcribe : whisper_model -> pystr -> transcribe_kwargs -> res transcription
}.

Inductive stream := Stdout | Stderr.

(** What the program does to its environment, in order. [EPrint] is one call
    of [print]: the text, which [print] ends with a newline. *)
Inductive event :=
| EPrint (to : stream) (text : pystr)
| ELoadModel (name : pystr) (device : option pystr)
| ETranscribe (model : whisper_model) (path : pystr) (kw : transcribe_kwargs).

(** A file written in text mode: its encoding and the text written to it
    (what the file object then does to that text, the encoding to bytes and
    the translation of newlines on some platforms, is not modelled). *)
Record textfile := { tf_encoding : pystr; tf_text : pystr }.

Record world := { files : gmap pystr textfile; events : list event }.

(** ** The monad of effectful code *)

Definition M (A : Type) : Type := world -> res A * world.

Definition ret {A} (a : A) : M A := fun w => (Ok a, w).

Definition bind {A B} (m : M A) (f : A -> M B) : M B :=
  fun w =>
    match m w with
    | (Ok a, w') => f a w'
    | (Raise e, w') => (Raise e, w')
    end.

Definition raise {A} (e : exn) : M A := fun w => (Raise e, w).

(** A computation without effects, run inside [M]. *)
Definition lift {A} (r : res A) : M A := fun w => (r, w).

Declare Scope M_scope.
Delimit Scope M_scope with M.
Notation "x <- c1 ;; c2" := (bind c1 (fun x => c2))
  (at level 100, c1 at next level, right associativity) : M_scope.
Notation "c1 ;; c2" := (bind c1 (fun _ => c2))
  (at level 100, right associativity) : M_scope.
Local Open Scope M_scope.

(** The world after the events [evs] have happened. *)
Definition logged (evs : list event) (w : world) : world :=
  {| files := files w; events := events w ++ evs |}.

Definition emit (ev : event) : M unit := fun w => (Ok tt, logged [ev] w).

(** [print(text, file=to)] *)
Definition print (to : stream) (text : pystr) : M unit := emit (EPrint to text).

(** [sys.exit(code)] *)
Definition sys_exit {A} (code : Z) : M A := raise (SystemExit code).

(** [open(path, "w", encoding=enc)]: the file is created or emptied; the
    handle is the path. *)
Definition open_w (E : env) (path enc : pystr) : M pystr :=
  fun w =>
    if can_open_w E path
    then (Ok path,
          {| files := <[path := {| tf_encoding := enc; tf_text := [] |}]> (files w);
             events := events w |})
    else (Raise OSError, w).

Definition append_text (text : pystr) (tf : textfile) : textfile :=
  {| tf_encoding := tf_encoding tf; tf_text := tf_text tf ++ text |}.

(** The world after [text] has been written to the open file [f]. *)
Definition written (f text : pystr) (w : world) : world :=
  {| files := alter (append_text text) f (files w); events := events w |}.

(** [f.write(text)] *)
Definition file_write (f : pystr) (text : pystr) : M unit :=
  fun w => (Ok tt, written f text w).

(** The exit status of the process when [main] ends with [r]. *)
Definition exit_status (r : res unit) : Z :=
  match r with
  | Ok _ => 0
  | Raise (SystemExit code) => code
  | Raise _ => 1
  end.

(** ** The program *)

(** [seconds * 1000] on a float. *)
Definition mul_1000 (x : float) : float := f_mul x (float_of_int 1000).

(** [srt_timestamp(seconds)] *)
Definition srt_timestamp (seconds : pyval) : M pystr :=
  (* if seconds < 0: seconds = 0 *)
  neg <- lift (lt_zero seconds) ;;
  let seconds := if neg : bool then VInt 0 else seconds in
  (* td = datetime.timedelta(seconds=seconds) *)
  td <- lift (timedelta_of_seconds seconds) ;;
  (* total_ms = int(round(td.total_seconds() * 1000)) *)
  ts <- lift (total_seconds td) ;;
  total_ms <- lift (float_round (mul_1000 ts)) ;;
  (* hours, rem_ms = divmod(total_ms, 3600 * 1000) *)
  let hours := total_ms / (3600 * 1000) in
  let rem_ms := total_ms mod (3600 * 1000) in
  (* minutes, rem_ms = divmod(rem_ms, 60 * 1000) *)
  let minutes := rem_ms / (60 * 1000) in
  let rem_ms := rem_ms mod (60 * 1000) in
  (* secs, ms = divmod(rem_ms, 1000) *)
  let secs := rem_ms / 1000 in
  let ms := rem_ms mod 1000 in
  ret (format_0d 2 hours ++ lit ":" ++ format_0d 2 minutes ++ lit ":"
       ++ format_0d 2 secs ++ lit "," ++ format_0d 3 ms).

(** [x.strip()]: only a [str] has the method. *)
Definition val_strip (x : pyval) : res pystr :=
  match x with
  | VStr s => Ok (str_strip s)
  | _ => Raise AttributeError
  end.

(** The body of the loop of [write_srt], for the segment at index [i]. *)
Definition write_block (f : pystr) (i : Z) (seg : segment) : M unit :=
  start <- srt_timestamp (seg_get seg "start" (VFloat f_zero)) ;;
  end_ <- srt_timestamp (seg_get seg "end" (VFloat f_zero)) ;;
  text <- lift (val_strip (seg_get seg "text" (VStr []))) ;;
  let text := str_replace (lit "  ") (lit " ") text in
  file_write f (str_of_int i ++ nl ++ start ++ lit " --> " ++ end_ ++ nl
                ++ text ++ nl ++ nl).

(** [for i, seg in enumerate(segments, start=i): ...] *)
Fixpoint write_blocks (f : pystr) (i : Z) (segments : list segment) : M unit :=
  match segments with
  | [] => ret tt
  | seg :: rest => write_block f i seg ;; write_blocks f (i + 1) rest
  end.

(** [write_srt(segments, out_path)] *)
Definition write_srt (E : env) (segments : list segment) (out_path : pystr)
  : M unit :=
  f <- open_w E out_path (lit "utf-8") ;;
  write_blocks f 1 segments.

(** The parsed command line. *)
Record args := {
  a_input : pystr;
  a_output : option pystr;
  a_model : pystr;
  a_language : option pystr;
  a_translate : bool;
  a_device : option pystr;
  a_fp16 : bool
}.

(** Truth value of a value that is [None] or a [str]. *)
Definition truthy (x : option pystr) : bool :=
  match x with
  | Some (_ :: _) => true
  | _ => false
  end.

(** [x or y] *)
Definition py_or (x y : option pystr) : option pystr :=
  if truthy x then x else y.

(** [str(x)] of a value that is [None] or a [str], as an f-string shows it. *)
Definition str_of_opt (x : option pystr) : pystr :=
  match x with
  | Some s => s
  | None => lit "None"
  end.

Definition opt_str_eqb (x : option pystr) (s : pystr) : bool :=
  match x with
  | Some t => bool_decide (t = s)
  | None => false
  end.

(** The [transcribe_kwargs] dict of [main]. *)
Definition make_kwargs (a : args) : transcribe_kwargs := {|
  kw_task := if a_translate a then lit "translate" else lit "transcribe";
  kw_language := a_language a;
  kw_fp16 := if opt_str_eqb (a_device a) (lit "cuda")
                || bool_decide (a_device a = None)
             then a_fp16 a else false;
  kw_temperature := f_zero;
  kw_no_speech_threshold := float_of_ratio 6 10;
  kw_logprob_threshold := float_of_ratio (-1) 1;
  kw_compression_ratio_threshold := float_of_ratio 24 10;
  kw_condition_on_previous_text := false
|}.

(** The output path [main] writes to. *)
Definition output_path (a : args) (result : transcription) : pystr :=
  let base := fst (splitext (a_input a)) in
  let detected := tr_language result in
  let lang := if a_translate a then Some (lit "en")
              else py_or (a_language a) detected in
  let derived := if truthy lang
                 then base ++ lit "." ++ str_of_opt lang ++ lit ".srt"
                 else base ++ lit ".srt" in
  str_of_opt (py_or (a_output a) (Some derived)).

(** [whisper.load_model(name, device=device)] *)
Definition whisper_load_model (E : env) (name : pystr) (device : option pystr)
  : M whisper_model :=
  emit (ELoadModel name device) ;; lift (load_model E name device).

(** [model.transcribe(path, **kwargs)] *)
Definition model_transcribe (E : env) (model : whisper_model) (path : pystr)
           (kwargs : transcribe_kwargs) : M transcription :=
  emit (ETranscribe model path kwargs) ;; lift (transcribe E model path kwargs).

(** [main()], after [parser.parse_args()] has returned [a]. *)
Definition main (E : env) (a : args) : M unit :=
  let in_path := a_input a in
  (if negb (isfile E in_path)
   then print Stderr (lit "Input not found: " ++ in_path) ;; sys_exit 1
   else ret tt) ;;
  print Stdout (lit "Loading Whisper model '" ++ a_model a ++ lit "'...") ;;
  model <- whisper_load_model E (a_model a) (a_device a) ;;
  let kwargs := make_kwargs a in
  print Stdout (lit "Transcribing '" ++ in_path ++ lit "'...") ;;
  result <- model_transcribe E model in_path kwargs ;;
  let segments := default [] (tr_segments result) in
  match segments with
  | [] => print Stderr (lit "No segments returned. Nothing to write.") ;; sys_exit 2
  | _ :: _ => ret tt
  end ;;
  let out_path := output_path a result in
  write_srt E segments out_path ;;
  print Stdout (lit "Done. Wrote subtitles to: " ++ out_path).

(** ** Vocabulary of the properties *)

Definition empty_world : world := {| files := ∅; events := [] |}.

(** A computation of [M] that neither reads nor changes the world. *)
Definition pure_in_M {A} (c : M A) : Prop := exists r, forall w, c w = (r, w).

(** *** Floats *)

(** [|x| <= 2^K], and the sign of [x] is [s]. *)
Definition fbound (s : bool) (K : Z) (x : float) : Prop :=
  match x with
  | S754_zero s' => s' = s
  | S754_finite s' m e => s' = s /\ e <= K /\ Zpos m <= 2 ^ (K - e)
  | _ => False
  end.

(** A timedelta as [timedelta] keeps them, not negative. *)
Definition td_valid (td : timedelta) : Prop :=
  0 <= td_days td <= 999999999 /\ 0 <= td_seconds td < 86400 /\
  0 <= td_microseconds td < 1000000.

(** [round(0 + secondsfrac * 1e6)] of [timedelta_of_seconds], for the
    fractional part [fr] that [math.modf] returned. *)
Definition usec_of_frac (fr : float) : res Z :=
  float_round (f_add (float_of_int 0)
                 (f_mul (f_add fr f_zero) (float_of_int 1000000))).

(** [10^9] days in seconds: from here on [timedelta] raises. *)
Definition seconds_limit : Z := 86400000000000.

(** The mantissa of [float_of_int seconds_limit], whose exponent is [-6]. *)
Definition limit_mantissa : Z := 5529600000000000.

(** *** Timestamps *)

(** The string [srt_timestamp] builds from [total_ms]. *)
Definition clock (total_ms : Z) : pystr :=
  format_0d 2 (total_ms / (3600 * 1000)) ++ lit ":"
  ++ format_0d 2 (total_ms mod (3600 * 1000) / (60 * 1000)) ++ lit ":"
  ++ format_0d 2 (total_ms mod (3600 * 1000) mod (60 * 1000) / 1000) ++ lit ","
  ++ format_0d 3 (total_ms mod (3600 * 1000) mod (60 * 1000) mod 1000).

(** [HH:MM:SS,mmm]: four fields of decimal digits; [MM] and [SS] have two
    digits and are at most 59, [mmm] has three digits, [HH] has two digits
    below 100 hours and more from 100 hours on. *)
Definition timestamp_form (s : pystr) : Prop :=
  exists hh mm ss mmm,
    s = hh ++ lit ":" ++ mm ++ lit ":" ++ ss ++ lit "," ++ mmm /\
    all_digits hh = true /\ all_digits mm = true /\
    all_digits ss = true /\ all_digits mmm = true /\
    (2 <= length hh)%nat /\ length mm = 2%nat /\ length ss = 2%nat /\
    length mmm = 3%nat /\
    dec_value mm <= 59 /\ dec_value ss <= 59 /\ dec_value mmm <= 999 /\
    (dec_value hh < 100 -> length hh = 2%nat) /\
    (100 <= dec_value hh -> (2 < length hh)%nat).

(** The seconds [srt_timestamp] accepts: an int below [10^9] days, or a
    float that is not NaN and is below [10^9] days. *)
Definition ok_seconds (v : pyval) : bool :=
  match v with
  | VInt z => z <? seconds_limit
  | VFloat f => is_float f && negb (is_nan f)
                && f_ltb f (float_of_int seconds_limit)
  | VNone | VStr _ => false
  end.

(** *** Text *)

(** What [write_srt] does to the stripped text: [text.replace("  ", " ")]. *)
Definition collapse (s : pystr) : pystr := str_replace (lit "  ") (lit " ") s.

Definition all_space (s : pystr) : bool := forallb is_space s.


(** *** SRT files *)

(** One block of an SRT file. *)
Definition srt_block (index : Z) (start_ts end_ts text : pystr) : pystr :=
  str_of_int index ++ nl ++ start_ts ++ lit " --> " ++ end_ts ++ nl
  ++ text ++ nl ++ nl.

(** The blocks of the cells (start, end, text), numbered from [index]. *)
Fixpoint srt_text (index : Z) (cells : list (pystr * pystr * pystr)) : pystr :=
  match cells with
  | [] => []
  | (start_ts, end_ts, text) :: rest =>
      srt_block index start_ts end_ts text ++ srt_text (index + 1) rest
  end.




(** The events of [main] up to and including the call of the engine. *)
Definition call_events (a : args) (m : whisper_model) : list event :=
  [EPrint Stdout (lit "Loading Whisper model '" ++ a_model a ++ lit "'...");
   ELoadModel (a_model a) (a_device a);
   EPrint Stdout (lit "Transcribing '" ++ a_input a ++ lit "'...");
   ETranscribe m (a_input a) (make_kwargs a)].

(** ** Sample inputs *)

(** Two segments as Whisper returns them, with an [id] of their own. *)
Definition sample_segments : list segment :=
  [ {[ "id" := VInt 7; "start" := VInt 0; "end" := VFloat (float_of_ratio 15 10);
       "text" := VStr (lit " Hello") ]};
    {[ "id" := VInt 3; "start" := VFloat (float_of_ratio 15 10); "end" := VInt 3;
       "text" := VStr (lit "World") ]} ].

Definition three_spaces_segment : segment :=
  {[ "start" := VInt 1; "end" := VInt 2; "text" := VStr (lit "  a   b  c ") ]}.

Definition text_only_segment : segment := {[ "text" := VStr (lit "Hi") ]}.


Definition sample_transcription : transcription :=
  {| tr_segments := Some sample_segments; tr_language := Some (lit "fr") |}.

Definition loaded (name : pystr) (device : option pystr) : res whisper_model :=
  Ok {| wm_name := name; wm_device := device |}.

(** Only [talk.mp4] exists; the engine hears the two sample segments, in
    French. *)
Definition env_sample : env := {|
  isfile := fun p => bool_decide (p = lit "talk.mp4");
  can_open_w := fun _ => true;
  load_model := loaded;
  transcribe := fun _ _ _ => Ok sample_transcription
|}.

(** The engine hears nothing. *)
Definition env_silent : env := {|
  isfile := fun _ => true;
  can_open_w := fun _ => true;
  load_model := loaded;
  transcribe := fun _ _ _ => Ok {| tr_segments := Some []; tr_language := None |}
|}.

(** No file can be opened for writing. *)
Definition env_read_only : env := {|
  isfile := fun _ => true;
  can_open_w := fun _ => false;
  load_model := loaded;
  transcribe := fun _ _ _ => Ok sample_transcription
|}.

(** [transcribe.py talk.mp4 --fp16] *)
Definition args_sample : args := {|
  a_input := lit "talk.mp4"; a_output := None; a_model := lit "base";
  a_language := None; a_translate := false; a_device := None; a_fp16 := true
|}.

(** [transcribe.py nope.mp4] *)
Definition args_missing : args := {|
  a_input := lit "nope.mp4"; a_output := None; a_model := lit "base";
  a_language := None; a_translate := false; a_device := None; a_fp16 := false
|}.

(** [transcribe.py talk.mp4 --language en --device cpu --fp16] *)
Definition args_cpu : args := {|
  a_input := lit "talk.mp4"; a_output := None; a_model := lit "base";
  a_language := Some (lit "en"); a_translate := false;
  a_device := Some (lit "cpu"); a_fp16 := true
|}.

(** ** Vocabulary of the further properties *)

(** *** Exceptions *)

(** A value as Python holds it: a float is in canonical form. *)
Definition value_typed (v : pyval) : bool :=
  match v with
  | VFloat f => is_float f
  | _ => true
  end.

(** The exception [srt_timestamp] raises on [v], if any. *)
Definition seconds_error (v : pyval) : option exn :=
  match v with
  | VNone | VStr _ => Some TypeError
  | VInt z => if z <? seconds_limit then None else Some OverflowError
  | VFloat f =>
      if is_nan f then Some ValueError
      else if f_ltb f (float_of_int seconds_limit) then None
      else Some OverflowError
  end.



(** *** Runs of [main] *)

(** The command line [a] without its [-o] option. *)
Definition without_output (a : args) : args := {|
  a_input := a_input a; a_output := None; a_model := a_model a;
  a_language := a_language a; a_translate := a_translate a;
  a_device := a_device a; a_fp16 := a_fp16 a
|}.

(** The last message of a run that wrote its file. *)
Definition done_message (out_path : pystr) : event :=
  EPrint Stdout (lit "Done. Wrote subtitles to: " ++ out_path).

(** *** Whole numbers and timestamps *)

(** The float [x] is the whole number [n], not negative, exactly. *)
Definition float_is_int (n : Z) (x : float) : Prop :=
  match x with
  | S754_zero false => n = 0
  | S754_finite false m e => Zpos m * 2 ^ Z.max 0 e = n * 2 ^ Z.max 0 (- e)
  | _ => False
  end.



(** *** Text *)



(** ** More sample inputs *)




(** The model cannot be loaded. *)
Definition env_no_model : env := {|
  isfile := fun _ => true;
  can_open_w := fun _ => true;
  load_model := fun _ _ => Raise OSError;
  transcribe := fun _ _ _ => Ok sample_transcription
|}.

(** [transcribe.py talk.mp4 -o subs/talk.srt --language de] *)
Definition args_output : args := {|
  a_input := lit "talk.mp4"; a_output := Some (lit "subs/talk.srt");
  a_model := lit "base"; a_language := Some (lit "de"); a_translate := false;
  a_device := None; a_fp16 := false
|}.

(** * Properties *)

(** ** Decimal numerals *)

Lemma digit_char_is_digit d : 0 <= d <= 9 -> is_digit (digit_char d) = true.
Proof.
  intros Hd. unfold is_digit, digit_char.
  apply andb_true_intro; split; apply N.leb_le; lia.
Qed.

Lemma digit_char_value d : 0 <= d <= 9 -> Z.of_N (digit_char d) - 48 = d.
Proof. intros Hd. unfold digit_char. lia. Qed.

Lemma dec_digits_app fuel : forall n acc,
  dec_digits fuel n acc = dec_digits fuel n [] ++ acc.
Proof.
  induction fuel as [|fuel IH]; intros n acc; simpl; [reflexivity|].
  destruct (n / 10 =? 0); [reflexivity|].
  rewrite (IH _ (_ :: acc)), (IH _ [_]), <- app_assoc. reflexivity.
Qed.

Lemma dec_value_app s t :
  dec_value (s ++ t) = dec_value s * 10 ^ Z.of_nat (length t) + dec_value t.
Proof.
  unfold dec_value. rewrite fold_left_app.
  generalize (fold_left (fun acc c => acc * 10 + (Z.of_N c - 48)) s 0) as a.
  induction t as [|c t IH]; intros a; simpl fold_left.
  - simpl. lia.
  - rewrite IH, (IH (0 * 10 + _)).
    change (length (c :: t)) with (S (length t)).
    rewrite Nat2Z.inj_succ, Z.pow_succ_r by lia. lia.
Qed.

Lemma all_digits_app s t :
  all_digits (s ++ t) = all_digits s && all_digits t.
Proof. apply forallb_app. Qed.

Lemma dec_digits_all_digits fuel : forall n,
  all_digits (dec_digits fuel n []) = true.
Proof.
  induction fuel as [|fuel IH]; intros n; simpl.
  - rewrite digit_char_is_digit by (pose proof (Z.mod_pos_bound n 10); lia).
    reflexivity.
  - destruct (n / 10 =? 0).
    + simpl. rewrite digit_char_is_digit by (pose proof (Z.mod_pos_bound n 10); lia).
      reflexivity.
    + rewrite dec_digits_app, all_digits_app, IH. simpl.
      rewrite digit_char_is_digit by (pose proof (Z.mod_pos_bound n 10); lia).
      reflexivity.
Qed.

Lemma log2_div10 n : 10 <= n -> Z.log2 (n / 10) <= Z.log2 n - 1.
Proof.
  intros Hn.
  assert (H2 : n / 10 <= n / 2).
  { apply Z.div_le_lower_bound; [lia|].
    pose proof (Z.mul_div_le n 10). pose proof (Z.mod_pos_bound n 2).
    pose proof (Z.div_mod n 2). lia. }
  apply Z.log2_le_mono in H2.
  rewrite <- Z.div2_div, Z.div2_spec, Z.log2_shiftr in H2 by lia.
  assert (3 <= Z.log2 n) by (apply (Z.log2_le_mono 8 n); lia). lia.
Qed.

(** The fuel of [str_of_nat] is enough: the numeral reads back as [n]. *)
Lemma dec_digits_value fuel : forall n,
  0 <= n -> Z.log2 n <= Z.of_nat fuel -> dec_value (dec_digits fuel n []) = n.
Proof.
  induction fuel as [|fuel IH]; intros n Hn Hlog; simpl.
  - assert (n < 2).
    { destruct (Z_lt_le_dec n 2); [assumption|].
      assert (1 <= Z.log2 n) by (apply (Z.log2_le_mono 2 n); lia). lia. }
    unfold dec_value; simpl. rewrite Z.mod_small by lia.
    rewrite digit_char_value; lia.
  - destruct (n / 10 =? 0) eqn:Eq.
    + apply Z.eqb_eq in Eq.
      assert (n < 10).
      { pose proof (Z.div_mod n 10). pose proof (Z.mod_pos_bound n 10). lia. }
      unfold dec_value; simpl. rewrite Z.mod_small by lia.
      rewrite digit_char_value; lia.
    + apply Z.eqb_neq in Eq.
      assert (10 <= n).
      { destruct (Z_lt_le_dec n 10); [|assumption].
        rewrite Z.div_small in Eq; lia. }
      rewrite dec_digits_app, dec_value_app, IH.
      * unfold dec_value at 1; simpl.
        rewrite digit_char_value by (pose proof (Z.mod_pos_bound n 10); lia).
        pose proof (Z.div_mod n 10). lia.
      * apply Z.div_pos; lia.
      * pose proof (log2_div10 n). lia.
Qed.

Lemma dec_digits_length fuel : forall n k,
  0 <= n < 10 ^ Z.of_nat (S k) -> (1 <= length (dec_digits fuel n []) <= S k)%nat.
Proof.
  induction fuel as [|fuel IH]; intros n k Hn; simpl; [lia|].
  destruct (n / 10 =? 0) eqn:Eq; [simpl; lia|].
  apply Z.eqb_neq in Eq.
  assert (10 <= n).
  { destruct (Z_lt_le_dec n 10); [|assumption]. rewrite Z.div_small in Eq; lia. }
  rewrite dec_digits_app, length_app. simpl.
  destruct k as [|k].
  - change (10 ^ Z.of_nat 1) with 10 in Hn. lia.
  - specialize (IH (n / 10) k).
    assert (0 <= n / 10 < 10 ^ Z.of_nat (S k)).
    { split; [apply Z.div_pos; lia|].
      apply Z.div_lt_upper_bound; [lia|].
      rewrite (Nat2Z.inj_succ (S k)), Z.pow_succ_r in Hn by lia. lia. }
    specialize (IH ltac:(assumption)). lia.
Qed.

Lemma dec_value_bound s :
  all_digits s = true -> 0 <= dec_value s < 10 ^ Z.of_nat (length s).
Proof.
  induction s as [|c s IH] using rev_ind; intros Hs.
  - unfold dec_value; simpl. lia.
  - rewrite all_digits_app in Hs. apply andb_prop in Hs as [Hs Hc].
    specialize (IH Hs). rewrite dec_value_app, length_app. simpl length.
    simpl in Hc. rewrite andb_true_r in Hc. unfold is_digit in Hc.
    apply andb_prop in Hc as [Hc1 Hc2]. apply N.leb_le in Hc1, Hc2.
    assert (Hv : dec_value [c] = Z.of_N c - 48) by (unfold dec_value; simpl; lia).
    rewrite Hv.
    replace (Z.of_nat (length s + 1)) with (Z.succ (Z.of_nat (length s))) by lia.
    rewrite Z.pow_succ_r by lia. change (10 ^ Z.of_nat 1) with 10. lia.
Qed.

Lemma str_of_nat_value n : 0 <= n -> dec_value (str_of_nat n) = n.
Proof.
  intros Hn. apply dec_digits_value; [assumption|].
  rewrite Z2Nat.id by apply Z.log2_nonneg. lia.
Qed.

Lemma str_of_nat_digits n : all_digits (str_of_nat n) = true.
Proof. apply dec_digits_all_digits. Qed.

Lemma str_of_nat_length n k :
  0 <= n < 10 ^ Z.of_nat (S k) -> (1 <= length (str_of_nat n) <= S k)%nat.
Proof. apply dec_digits_length. Qed.

Lemma zfill_length w s : length (zfill w s) = Nat.max w (length s).
Proof. unfold zfill. rewrite length_app, length_replicate. lia. Qed.

Lemma zfill_digits w s : all_digits s = true -> all_digits (zfill w s) = true.
Proof.
  intros Hs. unfold zfill. rewrite all_digits_app, Hs, andb_true_r.
  induction (w - length s)%nat; simpl; [reflexivity|assumption].
Qed.

Lemma zfill_value w s : dec_value (zfill w s) = dec_value s.
Proof.
  unfold zfill. rewrite dec_value_app.
  assert (H : dec_value (replicate (w - length s) 48%N) = 0); [|rewrite H; lia].
  induction (w - length s)%nat as [|k IH]; [reflexivity|].
  change (replicate (S k) 48%N) with ([48%N] ++ replicate k 48%N).
  rewrite dec_value_app, IH. reflexivity.
Qed.

Lemma format_0d_nonneg w n : 0 <= n -> format_0d w n = zfill w (str_of_nat n).
Proof. intros Hn. unfold format_0d. destruct (Z.ltb_spec n 0); [lia|reflexivity]. Qed.

(** A zero-padded field: [w] digits exactly while the number fits, all of
    its digits otherwise, and it reads back as the number. *)
Lemma format_0d_field w n :
  0 <= n ->
  all_digits (format_0d w n) = true /\
  dec_value (format_0d w n) = n /\
  (w <= length (format_0d w n))%nat /\
  (forall k, (S k <= w)%nat -> n < 10 ^ Z.of_nat (S k) ->
             length (format_0d w n) = w).
Proof.
  intros Hn. rewrite format_0d_nonneg by assumption.
  repeat split.
  - apply zfill_digits, str_of_nat_digits.
  - rewrite zfill_value. apply str_of_nat_value; assumption.
  - rewrite zfill_length. lia.
  - intros k Hk Hlt. rewrite zfill_length.
    pose proof (str_of_nat_length n k ltac:(lia)). lia.
Qed.

(** ** [str.replace] and [str.strip] *)

Lemma replace_scan_fuel old new : old <> [] -> forall fuel1 fuel2 s,
  (length s <= fuel1)%nat -> (length s <= fuel2)%nat ->
  replace_scan fuel1 old new s = replace_scan fuel2 old new s.
Proof.
  intros Hold. induction fuel1 as [|fuel1 IH]; intros fuel2 s H1 H2.
  - destruct s; [|simpl in H1; lia]. destruct fuel2; reflexivity.
  - destruct s as [|c s]; [destruct fuel2; reflexivity|].
    destruct fuel2 as [|fuel2]; [simpl in H2; lia|].
    simpl in H1, H2. cbn [replace_scan].
    destruct (starts_with old (c :: s)).
    + f_equal. apply IH.
      * destruct old as [|o old]; [congruence|]. simpl. rewrite length_drop. lia.
      * destruct old as [|o old]; [congruence|]. simpl. rewrite length_drop. lia.
    + f_equal. apply IH; lia.
Qed.

Lemma collapse_cons c s :
  collapse (c :: s) =
    if starts_with (lit "  ") (c :: s) then space :: collapse (drop 2 (c :: s))
    else c :: collapse s.
Proof.
  unfold collapse, str_replace. change (lit "  ") with [space; space].
  cbn [length replace_scan].
  destruct (starts_with [space; space] (c :: s)) eqn:E.
  - change (lit " ") with [space]. cbn [app]. f_equal.
    apply replace_scan_fuel; [discriminate| |lia].
    destruct s; [cbn [starts_with] in E; rewrite andb_false_r in E; discriminate E|].
    simpl. rewrite length_drop. lia.
  - reflexivity.
Qed.

Lemma collapse_other c s : c <> space -> collapse (c :: s) = c :: collapse s.
Proof.
  intros Hc. rewrite collapse_cons. change (lit "  ") with [space; space].
  cbn [starts_with]. destruct (N.eqb_spec space c); [congruence|reflexivity].
Qed.

Lemma collapse_pair s : collapse (space :: space :: s) = space :: collapse s.
Proof. rewrite collapse_cons. reflexivity. Qed.

Lemma collapse_single_space s :
  head s <> Some space -> collapse (space :: s) = space :: collapse s.
Proof.
  intros Hs. rewrite collapse_cons. change (lit "  ") with [space; space].
  destruct s as [|c s]; [reflexivity|]. cbn [starts_with].
  rewrite N.eqb_refl.
  destruct (N.eqb_spec space c) as [<-|]; [simpl in Hs; congruence|reflexivity].
Qed.

(** A run of [n] spaces shrinks to [(n + 1) / 2] spaces. *)
Lemma collapse_run n v :
  head v <> Some space ->
  collapse (replicate n space ++ v) = replicate ((n + 1) / 2) space ++ collapse v.
Proof.
  intros Hv.
  assert (H : collapse (replicate n space ++ v)
              = replicate ((n + 1) / 2) space ++ collapse v /\
              collapse (replicate (S n) space ++ v)
              = replicate ((S n + 1) / 2) space ++ collapse v); [|apply H].
  induction n as [|n [IH1 IH2]].
  - split; [reflexivity|]. simpl. apply collapse_single_space; assumption.
  - split; [assumption|].
    change (replicate (S (S n)) space ++ v) with (space :: space :: replicate n space ++ v).
    rewrite collapse_pair, IH1.
    replace ((S (S n) + 1) / 2)%nat with (S ((n + 1) / 2))%nat; [reflexivity|].
    replace (S (S n) + 1)%nat with ((n + 1) + 1 * 2)%nat by lia.
    rewrite Nat.div_add by lia. lia.
Qed.

(** Text that does not end in a space is collapsed on its own. *)
Lemma collapse_app u t :
  last u <> Some space -> collapse (u ++ t) = collapse u ++ collapse t.
Proof.
  remember (length u) as k eqn:Hk. revert u Hk.
  induction k as [k IH] using lt_wf_ind. intros u Hk Hu.
  destruct u as [|a [|b u]].
  - reflexivity.
  - assert (a <> space) by (simpl in Hu; congruence).
    simpl app. rewrite !collapse_other by assumption. reflexivity.
  - destruct (N.eq_dec a space) as [->|Ha].
    + destruct (N.eq_dec b space) as [->|Hb].
      * change ((space :: space :: u) ++ t) with (space :: space :: (u ++ t)).
        rewrite !collapse_pair. simpl app. f_equal.
        apply (IH (length u)); [simpl in Hk; lia|reflexivity|].
        destruct u; [simpl in Hu; congruence|exact Hu].
      * change ((space :: b :: u) ++ t) with (space :: ((b :: u) ++ t)).
        rewrite !collapse_single_space by (simpl; congruence).
        simpl app. f_equal. change (b :: u ++ t) with ((b :: u) ++ t).
        apply (IH (length (b :: u))); [simpl in *; lia|reflexivity|exact Hu].
    + change ((a :: b :: u) ++ t) with (a :: ((b :: u) ++ t)).
      rewrite !collapse_other by assumption. simpl app. f_equal.
      change (b :: u ++ t) with ((b :: u) ++ t).
      apply (IH (length (b :: u))); [simpl in *; lia|reflexivity|exact Hu].
Qed.

(** The law of [text.replace("  ", " ")] on a run of spaces between two
    pieces of text. *)
Lemma collapse_between u n v :
  last u <> Some space -> head v <> Some space ->
  collapse (u ++ replicate n space ++ v)
  = collapse u ++ replicate ((n + 1) / 2) space ++ collapse v.
Proof. intros Hu Hv. rewrite collapse_app, collapse_run by assumption. reflexivity. Qed.

(** *** [strip] *)

Lemma lstrip_spec s :
  exists l, s = l ++ lstrip s /\ all_space l = true /\
            (forall c, head (lstrip s) = Some c -> is_space c = false).
Proof.
  induction s as [|c s (l & Hl & Hsp & Hhd)].
  - exists []. repeat split. intros c Hc; discriminate Hc.
  - simpl. destruct (is_space c) eqn:Ec.
    + exists (c :: l). simpl. rewrite Ec, Hsp. repeat split; [congruence|assumption].
    + exists []. repeat split. intros c' Hc'. simpl in Hc'. congruence.
Qed.

Lemma all_space_rev l : all_space (rev l) = all_space l.
Proof.
  unfold all_space. induction l as [|c l IH]; [reflexivity|].
  simpl. rewrite forallb_app, IH. simpl. rewrite andb_true_r. apply andb_comm.
Qed.

Lemma rstrip_spec s :
  exists r, s = rstrip s ++ r /\ all_space r = true /\
            (forall c, last (rstrip s) = Some c -> is_space c = false).
Proof.
  destruct (lstrip_spec (rev s)) as (l & Hl & Hsp & Hhd).
  exists (rev l). unfold rstrip. repeat split.
  - rewrite <- rev_app_distr, <- Hl, rev_involutive. reflexivity.
  - rewrite all_space_rev. assumption.
  - intros c Hc. apply Hhd. rewrite <- Hc.
    generalize (lstrip (rev s)) as t. intros t.
    destruct t as [|x t]; [reflexivity|]. simpl. rewrite last_snoc. reflexivity.
Qed.

(** [strip] removes a whitespace prefix and a whitespace suffix, and what
    stays neither starts nor ends with whitespace. *)
Lemma str_strip_spec s :
  exists l r, s = l ++ str_strip s ++ r /\
    all_space l = true /\ all_space r = true /\
    (forall c, head (str_strip s) = Some c -> is_space c = false) /\
    (forall c, last (str_strip s) = Some c -> is_space c = false).
Proof.
  destruct (lstrip_spec s) as (l & Hl & Hlsp & Hhd).
  destruct (rstrip_spec (lstrip s)) as (r & Hr & Hrsp & Hlast).
  exists l, r. unfold str_strip. repeat split; try assumption.
  - rewrite <- Hr. assumption.
  - intros c Hc. apply Hhd. rewrite Hr.
    destruct (rstrip (lstrip s)); [discriminate Hc|exact Hc].
Qed.

(** ** Rounding to binary64 *)

Lemma digits2_pos_size p : digits2_pos p = Pos.size p.
Proof. induction p; simpl; congruence. Qed.

Lemma pos_lt_pow_digits p : Zpos p < 2 ^ Zpos (digits2_pos p).
Proof.
  rewrite digits2_pos_size.
  pose proof (Pos.size_gt p) as H.
  apply Pos2Z.pos_lt_pos in H. rewrite Pos2Z.inj_pow in H. exact H.
Qed.

Lemma pow_digits_le p : 2 ^ (Zpos (digits2_pos p) - 1) <= Zpos p.
Proof.
  rewrite digits2_pos_size.
  pose proof (Pos.size_le p) as H.
  apply Pos2Z.pos_le_pos in H. rewrite Pos2Z.inj_pow in H.
  replace (Zpos (Pos.size p)) with (Z.succ (Zpos (Pos.size p) - 1)) in H by lia.
  rewrite Z.pow_succ_r in H by lia. rewrite (Pos2Z.inj_xO p) in H. lia.
Qed.

Lemma Zdigits2_le_pow m k : 0 <= m -> 0 <= k -> m < 2 ^ k -> Zdigits2 m <= k.
Proof.
  intros Hm Hk Hlt. destruct m as [|p|p]; simpl; [lia| |lia].
  pose proof (pow_digits_le p) as Hp.
  destruct (Z_lt_le_dec k (Zpos (digits2_pos p))) as [Hc|Hc]; [|lia].
  exfalso. assert (2 ^ k <= 2 ^ (Zpos (digits2_pos p) - 1)) by (apply Z.pow_le_mono_r; lia).
  lia.
Qed.

Lemma shr_1_m mrs : 0 <= shr_m mrs -> shr_m (shr_1 mrs) = shr_m mrs / 2.
Proof.
  destruct mrs as [m r s]. simpl. intros Hm.
  destruct m as [|p|p]; [reflexivity| |lia].
  destruct p; simpl.
  - rewrite (Pos2Z.inj_xI p). apply Z.div_unique with 1; lia.
  - rewrite (Pos2Z.inj_xO p). apply Z.div_unique with 0; lia.
  - reflexivity.
Qed.

Lemma shr_iter_m p : forall mrs, 0 <= shr_m mrs ->
  shr_m (SpecFloat.iter_pos shr_1 p mrs) = shr_m mrs / 2 ^ Zpos p.
Proof.
  induction p; intros mrs Hm; simpl.
  - assert (H1 : 0 <= shr_m (shr_1 mrs)) by (rewrite shr_1_m by lia; apply Z.div_pos; lia).
    rewrite IHp, IHp, shr_1_m by (rewrite ?IHp, ?shr_1_m by lia; try apply Z.div_pos; try lia;
      apply Z.div_pos; lia).
    rewrite !Z.div_div by lia.
    rewrite (Pos2Z.inj_xI p). f_equal.
    replace (2 * Zpos p + 1) with (1 + Zpos p + Zpos p) by lia.
    rewrite !Z.pow_add_r by lia. lia.
  - rewrite IHp, IHp by (rewrite ?IHp by lia; try apply Z.div_pos; lia).
    rewrite !Z.div_div by lia.
    rewrite (Pos2Z.inj_xO p). f_equal.
    replace (2 * Zpos p) with (Zpos p + Zpos p) by lia.
    rewrite !Z.pow_add_r by lia. lia.
  - apply shr_1_m; lia.
Qed.

Lemma shr_record_of_loc_m m l : shr_m (shr_record_of_loc m l) = m.
Proof. destruct l as [|[]]; reflexivity. Qed.

(** The shift [shr_fexp] applies, as a division. *)
Lemma shr_fexp_spec m e l : 0 <= m ->
  let n := Z.max 0 (fexp prec emax (Zdigits2 m + e) - e) in
  shr_m (fst (shr_fexp prec emax m e l)) = m / 2 ^ n /\
  snd (shr_fexp prec emax m e l) = e + n.
Proof.
  intros Hm n. unfold shr_fexp, shr. subst n.
  destruct (fexp prec emax (Zdigits2 m + e) - e) as [|p|p] eqn:En; simpl.
  - rewrite shr_record_of_loc_m, Z.div_1_r. lia.
  - rewrite shr_iter_m by (rewrite shr_record_of_loc_m; lia).
    rewrite shr_record_of_loc_m. rewrite Z.max_r by lia. split; [reflexivity|lia].
  - rewrite shr_record_of_loc_m, Z.div_1_r. lia.
Qed.

Lemma round_nearest_even_bounds m l :
  m <= round_nearest_even m l <= m + 1.
Proof. destruct l as [|[]]; simpl; try lia. destruct (Z.even m); lia. Qed.

Lemma fexp_le K x : -1074 <= K -> x <= K + 53 -> fexp prec emax x <= K.
Proof. unfold fexp, emin, prec, emax. lia. Qed.

(** Rounding a value below [2^K] gives a float of at most [2^K]: it does
    not overflow, and it keeps the sign. *)
Lemma binary_round_aux_bound s mx ex lx K :
  0 <= mx -> -1074 <= K <= 1023 -> ex <= K -> ex <= 971 ->
  mx < 2 ^ (K - ex) ->
  fbound s K (binary_round_aux prec emax s mx ex lx).
Proof.
  intros Hmx HK Hex Hex' Hlt.
  unfold binary_round_aux.
  destruct (shr_fexp_spec mx ex lx Hmx) as [Hm1 He1].
  destruct (shr_fexp prec emax mx ex lx) as [mrs1 e1]. simpl in Hm1, He1.
  set (n1 := Z.max 0 (fexp prec emax (Zdigits2 mx + ex) - ex)) in *.
  assert (Hd : Zdigits2 mx <= K - ex) by (apply Zdigits2_le_pow; lia).
  assert (Hf1 : fexp prec emax (Zdigits2 mx + ex) <= K) by (apply fexp_le; lia).
  assert (Hf1' : fexp prec emax (Zdigits2 mx + ex) <= 971)
    by (unfold fexp, emin, prec, emax; lia).
  assert (He1K : e1 <= K) by lia.
  assert (He1' : e1 <= 971) by lia.
  assert (Hn1 : 0 <= n1) by lia.
  assert (Hm1b : 0 <= shr_m mrs1 /\ shr_m mrs1 + 1 <= 2 ^ (K - e1)).
  { rewrite Hm1. split; [apply Z.div_pos; lia|].
    assert (mx / 2 ^ n1 < 2 ^ (K - e1)); [|lia].
    apply Z.div_lt_upper_bound; [lia|].
    rewrite <- Z.pow_add_r by lia. replace (n1 + (K - e1)) with (K - ex) by lia. lia. }
  pose proof (round_nearest_even_bounds (shr_m mrs1) (loc_of_shr_record mrs1)) as Hr.
  set (m1 := round_nearest_even (shr_m mrs1) (loc_of_shr_record mrs1)) in *.
  assert (Hm1' : 0 <= m1) by lia.
  destruct (shr_fexp_spec m1 e1 loc_Exact Hm1') as [Hm2 He2].
  destruct (shr_fexp prec emax m1 e1 loc_Exact) as [mrs2 e2]. simpl in Hm2, He2.
  set (n2 := Z.max 0 (fexp prec emax (Zdigits2 m1 + e1) - e1)) in *.
  assert (Hd1 : Zdigits2 m1 <= K - e1 + 1).
  { apply Zdigits2_le_pow; try lia. rewrite Z.pow_add_r by lia. lia. }
  assert (Hf2 : fexp prec emax (Zdigits2 m1 + e1) <= K) by (apply fexp_le; lia).
  assert (Hf2' : fexp prec emax (Zdigits2 m1 + e1) <= 971)
    by (unfold fexp, emin, prec, emax; lia).
  assert (He2K : e2 <= K) by lia.
  assert (Hm2b : 0 <= shr_m mrs2 <= 2 ^ (K - e2)).
  { rewrite Hm2. split; [apply Z.div_pos; lia|].
    apply Z.div_le_upper_bound; [lia|].
    rewrite <- Z.pow_add_r by lia. replace (n2 + (K - e2)) with (K - e1) by lia. lia. }
  destruct (shr_m mrs2) as [|m|m]; simpl; [reflexivity| |lia].
  replace (e2 <=? emax - prec) with true
    by (symmetry; apply Z.leb_le; unfold emax, prec; lia).
  simpl. split; [reflexivity|lia].
Qed.

Lemma float_of_int_1000 : float_of_int 1000 = S754_finite false 8796093022208000 (-43).
Proof. vm_compute. reflexivity. Qed.

Lemma float_of_int_1000000 :
  float_of_int 1000000 = S754_finite false 8589934592000000 (-33).
Proof. vm_compute. reflexivity. Qed.

(** The product of a float below [2^K] by a finite constant below [2^J]. *)
Lemma f_mul_bound s K x my ey J :
  fbound s K x -> -1074 <= K + J <= 1023 -> K + ey <= 971 ->
  ey <= J -> Zpos my < 2 ^ (J - ey) ->
  fbound s (K + J) (f_mul x (S754_finite false my ey)).
Proof.
  intros Hx HK He HeJ Hmy. destruct x as [s'| | |s' m e]; simpl in Hx; try tauto.
  - subst. simpl. destruct s; reflexivity.
  - destruct Hx as (-> & HeK & Hm). unfold f_mul, SFmul.
    replace (xorb s false) with s by (destruct s; reflexivity).
    apply binary_round_aux_bound; try lia.
    rewrite Pos2Z.inj_mul.
    replace (K + J - (e + ey)) with ((K - e) + (J - ey)) by lia.
    rewrite Z.pow_add_r by lia.
    apply Z.le_lt_trans with (2 ^ (K - e) * Zpos my).
    + apply Z.mul_le_mono_nonneg_r; lia.
    + apply Z.mul_lt_mono_pos_l; [apply Z.pow_pos_nonneg; lia|lia].
Qed.

Lemma mul_1000_bound s K x :
  fbound s K x -> -1084 <= K <= 1013 -> fbound s (K + 10) (mul_1000 x).
Proof.
  intros Hx HK. unfold mul_1000. rewrite float_of_int_1000.
  apply f_mul_bound; try assumption; try lia.
Qed.

(** [round] of a non-negative float that is at most [2^K]. *)
Lemma float_round_bound K x :
  0 <= K -> fbound false K x -> exists n, float_round x = Ok n /\ 0 <= n <= 2 ^ K.
Proof.
  intros HK Hx. destruct x as [s'| | |s' m e]; simpl in Hx; try tauto.
  - exists 0. split; [reflexivity|]. pose proof (Z.pow_pos_nonneg 2 K). lia.
  - destruct Hx as (-> & HeK & Hm). unfold float_round.
    destruct (Z.leb_spec 0 e) as [He|He].
    + eexists; split; [reflexivity|]. simpl cond_Zopp.
      rewrite Z.shiftl_mul_pow2 by lia. split; [lia|].
      replace K with ((K - e) + e) at 1 by lia.
      rewrite Z.pow_add_r by lia.
      apply Z.mul_le_mono_nonneg_r; [apply Z.pow_nonneg|]; lia.
    + eexists; split; [reflexivity|]. simpl cond_Zopp.
      rewrite Z.shiftr_div_pow2, Z.land_ones, Z.shiftl_mul_pow2 by lia.
      rewrite Z.mul_1_l.
      set (k := - e) in *. set (q := Zpos m / 2 ^ k). set (r := Zpos m mod 2 ^ k).
      assert (Hk : 0 < 2 ^ k) by (apply Z.pow_pos_nonneg; lia).
      assert (Hh : 0 < 2 ^ (k - 1)) by (apply Z.pow_pos_nonneg; lia).
      assert (Hq : 0 <= q) by (apply Z.div_pos; lia).
      assert (Hdm : Zpos m = 2 ^ k * q + r) by (apply Z.div_mod; lia).
      assert (Hr : 0 <= r < 2 ^ k) by (apply Z.mod_pos_bound; lia).
      assert (Hpow : 2 ^ (K - e) = 2 ^ k * 2 ^ K).
      { replace (K - e) with (k + K) by lia. apply Z.pow_add_r; lia. }
      assert (HqK : q <= 2 ^ K) by nia.
      destruct ((2 ^ (k - 1) <? r) || (r =? 2 ^ (k - 1)) && Z.odd q) eqn:Eup; [|lia].
      split; [lia|].
      destruct (Z.eq_dec q (2 ^ K)) as [Eq|Nq]; [|lia].
      exfalso. assert (r = 0) by nia. subst r.
      apply orb_prop in Eup as [Eup|Eup].
      * apply Z.ltb_lt in Eup. lia.
      * apply andb_prop in Eup as [Eup _]. apply Z.eqb_eq in Eup. lia.
Qed.

(** A count of microseconds below [2^67], divided by [10^6]. *)
Lemma int_truediv_bound T :
  0 < T < 2 ^ 67 -> exists x, int_truediv T 1000000 = Ok x /\ fbound false 67 x.
Proof.
  intros HT. unfold int_truediv.
  destruct (Z.eqb_spec 1000000 0) as [|_]; [lia|].
  destruct (Z.eqb_spec T 0) as [|_]; [lia|].
  replace (xorb (T <? 0) (1000000 <? 0)) with false
    by (destruct (Z.ltb_spec T 0); [lia|reflexivity]).
  rewrite (Z.abs_eq T) by lia. change (Z.abs 1000000) with 1000000.
  unfold SFdiv_core_binary.
  change (Zdigits2 1000000) with 20.
  set (e' := Z.min (fexp prec emax (Zdigits2 T + 0 - (20 + 0))) (0 - 0)).
  set (m' := match 0 - 0 - e' with Zpos _ => Z.shiftl T (0 - 0 - e') | 0 => T | Zneg _ => 0 end).
  assert (He' : e' <= 0) by (subst e'; lia).
  assert (Hm' : m' = T * 2 ^ (- e')).
  { subst m'. destruct (0 - 0 - e') as [|p|p] eqn:E.
    - replace (- e') with 0 by lia. simpl. lia.
    - rewrite Z.shiftl_mul_pow2 by lia. f_equal. f_equal. lia.
    - lia. }
  pose proof (Z.div_eucl_eq m' 1000000 ltac:(lia)) as Hde.
  pose proof (Z.mod_pos_bound m' 1000000 ltac:(lia)) as Hmod.
  unfold Z.modulo in Hmod.
  destruct (Z.div_eucl m' 1000000) as [q r]. 
  assert (Hp : 0 < 2 ^ (- e')) by (apply Z.pow_pos_nonneg; lia).
  assert (Hq : 0 <= q < 2 ^ (67 - e')).
  { replace (67 - e') with (67 + - e') by lia. rewrite Z.pow_add_r by lia. nia. }
  pose proof (binary_round_aux_bound false q e' (new_location 1000000 r) 67
                ltac:(lia) ltac:(lia) ltac:(lia) ltac:(lia) ltac:(lia)) as Hb.
  destruct (binary_round_aux prec emax false q e' (new_location 1000000 r));
    simpl in Hb; try tauto; eexists; (split; [reflexivity|]); simpl; assumption.
Qed.

Lemma total_seconds_bound td :
  td_valid td -> exists x, total_seconds td = Ok x /\ fbound false 67 x.
Proof.
  intros (Hd & Hs & Hus). unfold total_seconds.
  set (T := (td_days td * 86400 + td_seconds td) * 1000000 + td_microseconds td).
  assert (HT : 0 <= T < 2 ^ 67).
  { subst T. change (2 ^ 67) with 147573952589676412928. nia. }
  destruct (Z.eq_dec T 0) as [E|NE].
  - rewrite E. eexists; split; [reflexivity|reflexivity].
  - apply int_truediv_bound. lia.
Qed.

(** Past [timedelta], [srt_timestamp] cannot raise, and its millisecond
    count is not negative. *)
Lemma total_ms_of_valid td :
  td_valid td ->
  exists ts n, total_seconds td = Ok ts /\ float_round (mul_1000 ts) = Ok n /\ 0 <= n.
Proof.
  intros Htd. destruct (total_seconds_bound td Htd) as (ts & Hts & Hb).
  pose proof (mul_1000_bound false 67 ts Hb ltac:(lia)) as Hb'.
  destruct (float_round_bound (67 + 10) _ ltac:(lia) Hb') as (n & Hn & Hn').
  exists ts, n. split; [assumption|]. split; [assumption|lia].
Qed.

Lemma Zdigits2_unique p k :
  2 ^ (k - 1) <= Zpos p < 2 ^ k -> Zpos (digits2_pos p) = k.
Proof.
  intros [Hlo Hhi].
  pose proof (pos_lt_pow_digits p) as H1. pose proof (pow_digits_le p) as H2.
  set (d := Zpos (digits2_pos p)) in *.
  assert (0 < d) by (subst d; lia).
  assert (Hk : 0 < k).
  { destruct (Z_lt_le_dec 0 k); [assumption|].
    rewrite (Z.pow_neg_r 2 (k - 1)) in Hlo by lia.
    destruct (Z.eq_dec k 0) as [->|]; [simpl in Hhi; lia|].
    rewrite (Z.pow_neg_r 2 k) in Hhi by lia. lia. }
  destruct (Z_lt_le_dec d k) as [Hc|Hc].
  - assert (2 ^ d <= 2 ^ (k - 1)) by (apply Z.pow_le_mono_r; lia). lia.
  - destruct (Z_lt_le_dec k d) as [Hc'|Hc']; [|lia].
    assert (2 ^ k <= 2 ^ (d - 1)) by (apply Z.pow_le_mono_r; lia). lia.
Qed.

Lemma iter_xO_Z p d : Zpos (Pos.iter xO p d) = Zpos p * 2 ^ Zpos d.
Proof.
  rewrite (Pos.iter_swap_gen _ _ Zpos xO (Z.mul 2)) by reflexivity.
  change (Pos.iter (Z.mul 2) (Zpos p) d) with (Z.shiftl (Zpos p) (Zpos d)).
  apply Z.shiftl_mul_pow2. lia.
Qed.

(** [shl_align] keeps the value and does not raise the exponent. *)
Lemma shl_align_spec mx ex ex' :
  let '(mz, ez) := shl_align mx ex ex' in
  ez = Z.min ex ex' /\ Zpos mz = Zpos mx * 2 ^ (ex - ez).
Proof.
  unfold shl_align. destruct (ex' - ex) as [|d|d] eqn:E.
  - rewrite Z.min_l by lia. rewrite Z.sub_diag. simpl. lia.
  - rewrite Z.min_l by lia. rewrite Z.sub_diag. simpl. lia.
  - rewrite Z.min_r by lia. rewrite iter_xO_Z.
    split; [reflexivity|]. f_equal. f_equal. lia.
Qed.

Lemma float_of_parts_bound s z e K :
  0 <= z -> -1074 <= K <= 1023 -> e <= K -> e <= 971 -> z < 2 ^ (K - e) ->
  fbound s K (float_of_parts s z e).
Proof.
  intros Hz HK He He' Hlt. destruct z as [|p|p]; [reflexivity| |lia].
  unfold float_of_parts, binary_round.
  pose proof (shl_align_spec p e (fexp prec emax (Zpos (digits2_pos p) + e))) as Hs.
  destruct (shl_align p e (fexp prec emax (Zpos (digits2_pos p) + e))) as [mz ez].
  destruct Hs as [Hez Hmz].
  apply binary_round_aux_bound; try lia.
  rewrite Hmz. replace (K - ez) with ((K - e) + (e - ez)) by lia.
  rewrite Z.pow_add_r by lia.
  apply Z.mul_lt_mono_pos_r; [apply Z.pow_pos_nonneg; lia|assumption].
Qed.

(** An int below [2^53] is a float exactly. *)
Lemma float_of_parts_int s z :
  0 <= z < 2 ^ 53 -> int_of_float (float_of_parts s z 0) = Ok (cond_Zopp s z).
Proof.
  intros Hz. destruct z as [|p|p]; [destruct s; reflexivity| |lia].
  unfold float_of_parts, binary_round.
  set (d := Zpos (digits2_pos p)).
  assert (Hd : 1 <= d <= 53).
  { subst d. split; [lia|]. change (Zpos (digits2_pos p)) with (Zdigits2 (Zpos p)).
    apply Zdigits2_le_pow; lia. }
  assert (Hf : fexp prec emax (d + 0) = d - 53) by (unfold fexp, emin, prec, emax; lia).
  rewrite Hf.
  pose proof (shl_align_spec p 0 (d - 53)) as Hs.
  destruct (shl_align p 0 (d - 53)) as [mz ez]. destruct Hs as [Hez Hmz].
  rewrite Z.min_r in Hez by lia. subst ez.
  assert (Hdz : Zpos (digits2_pos mz) = 53).
  { apply Zdigits2_unique. rewrite Hmz.
    pose proof (pos_lt_pow_digits p) as H1. pose proof (pow_digits_le p) as H2.
    fold d in H1, H2.
    set (j := 0 - (d - 53)).
    assert (Hj : 0 < 2 ^ j) by (apply Z.pow_pos_nonneg; lia).
    assert (E1 : 2 ^ (53 - 1) = 2 ^ (d - 1) * 2 ^ j)
      by (rewrite <- Z.pow_add_r by lia; f_equal; lia).
    assert (E2 : 2 ^ 53 = 2 ^ d * 2 ^ j)
      by (rewrite <- Z.pow_add_r by lia; f_equal; lia).
    rewrite E1, E2.
    split; [apply Z.mul_le_mono_nonneg_r|apply Z.mul_lt_mono_pos_r]; lia. }
  unfold binary_round_aux, shr_fexp. simpl Zdigits2. rewrite Hdz.
  replace (fexp prec emax (53 + (d - 53)) - (d - 53)) with 0
    by (unfold fexp, emin, prec, emax; lia).
  simpl. rewrite Hdz.
  replace (fexp prec emax (53 + (d - 53)) - (d - 53)) with 0
    by (unfold fexp, emin, prec, emax; lia).
  simpl.
  replace (d - 53 <=? emax - prec) with true
    by (symmetry; apply Z.leb_le; unfold emax, prec; lia).
  unfold int_of_float. f_equal. f_equal.
  destruct (Z.leb_spec 0 (d - 53)).
  - replace (d - 53) with 0 in * by lia. rewrite Z.shiftl_0_r, Hmz. simpl. lia.
  - rewrite Z.shiftr_div_pow2 by lia. rewrite Hmz.
    replace (0 - (d - 53)) with (- (d - 53)) by lia.
    apply Z.div_mul. apply Z.pow_nonzero; lia.
Qed.

Lemma f_add_zero_r K x : fbound false K x -> f_add x f_zero = x.
Proof. destruct x as [[]| | |]; simpl; intros H; try tauto; try discriminate; reflexivity. Qed.

Lemma f_add_zero_l K x : fbound false K x -> f_add (float_of_int 0) x = x.
Proof. destruct x as [[]| | |]; simpl; intros H; try tauto; try discriminate; reflexivity. Qed.

(** ** [timedelta(seconds=x)] on its domain *)

Lemma timedelta_norm n micro :
  0 <= n -> 0 <= micro -> n + micro / 1000000 < seconds_limit ->
  td_valid (Timedelta (n / 86400 + (n mod 86400 + micro / 1000000) / 86400)
                      ((n mod 86400 + micro / 1000000) mod 86400)
                      (micro mod 1000000)).
Proof.
  intros Hn Hmicro Hlim. unfold td_valid, seconds_limit in *. simpl.
  pose proof (Z.div_mod n 86400 ltac:(lia)).
  pose proof (Z.mod_pos_bound n 86400 ltac:(lia)).
  pose proof (Z.mod_pos_bound micro 1000000 ltac:(lia)).
  assert (0 <= micro / 1000000) by (apply Z.div_pos; lia).
  set (c := n mod 86400 + micro / 1000000) in *.
  pose proof (Z.div_mod c 86400 ltac:(lia)).
  pose proof (Z.mod_pos_bound c 86400 ltac:(lia)).
  assert (0 <= n / 86400) by (apply Z.div_pos; lia).
  assert (0 <= c / 86400) by (apply Z.div_pos; lia).
  lia.
Qed.

Lemma timedelta_float_unfold f fr ip n micro :
  modf (f_add f (float_of_int 0)) = (fr, ip) ->
  int_of_float ip = Ok n ->
  float_round (f_add (float_of_int 0)
                 (f_mul (f_add fr f_zero) (float_of_int 1000000))) = Ok micro ->
  timedelta_of_seconds (VFloat f) =
    let d := n / 86400 + (n mod 86400 + micro / 1000000) / 86400 in
    if 999999999 <? Z.abs d then Raise OverflowError
    else Ok (Timedelta d ((n mod 86400 + micro / 1000000) mod 86400)
                       (micro mod 1000000)).
Proof.
  intros Hmodf Hn Hmicro. unfold timedelta_of_seconds. cbn [res_bind].
  rewrite Hmodf. rewrite Hn. cbn [res_bind]. rewrite Hmicro. cbn [res_bind].
  reflexivity.
Qed.

Lemma usec_of_frac_bound fr :
  fbound false 0 fr -> exists micro, usec_of_frac fr = Ok micro /\ 0 <= micro <= 2 ^ 20.
Proof.
  intros Hfr. unfold usec_of_frac.
  rewrite (f_add_zero_r 0 fr Hfr), float_of_int_1000000.
  pose proof (f_mul_bound false 0 fr 8589934592000000 (-33) 20 Hfr
                ltac:(lia) ltac:(lia) ltac:(lia) ltac:(reflexivity)) as Hb.
  rewrite (f_add_zero_l _ _ Hb).
  apply (float_round_bound (0 + 20)); [lia|assumption].
Qed.

(** From [2^46] seconds on a float is a multiple of [1/64] second, and its
    fraction is a whole number of microseconds. *)
Lemma usec_of_frac_64ths r :
  0 <= r < 64 -> usec_of_frac (float_of_parts false r (-6)) = Ok (r * 15625).
Proof.
  intros Hr.
  assert (Hall : forallb (fun r => match usec_of_frac (float_of_parts false r (-6)) with
                                   | Ok n => n =? r * 15625
                                   | Raise _ => false
                                   end) (seqZ 0 64) = true) by (vm_compute; reflexivity).
  rewrite forallb_forall in Hall.
  specialize (Hall r). 
  assert (Hin : In r (seqZ 0 64)).
  { apply list_elem_of_In, elem_of_seqZ. lia. }
  specialize (Hall Hin).
  destruct (usec_of_frac (float_of_parts false r (-6))); [|discriminate].
  apply Z.eqb_eq in Hall. congruence.
Qed.

(** [timedelta] accepts every positive float below [10^9] days. *)
Lemma timedelta_float_ok m e :
  Zpos m < 2 ^ 53 -> e < 0 ->
  (e < -6 \/ e = -6 /\ Zpos m < limit_mantissa) ->
  exists td, timedelta_of_seconds (VFloat (S754_finite false m e)) = Ok td /\ td_valid td.
Proof.
  intros Hm He Hlim.
  set (k := - e).
  assert (Hk : 0 < 2 ^ k) by (apply Z.pow_pos_nonneg; lia).
  set (n := Z.shiftr (Zpos m) k).
  set (r := Z.land (Zpos m) (Z.ones k)).
  assert (Hn : n = Zpos m / 2 ^ k) by (apply Z.shiftr_div_pow2; lia).
  assert (Hr : r = Zpos m mod 2 ^ k) by (apply Z.land_ones; lia).
  assert (Hdm : Zpos m = 2 ^ k * n + r) by (rewrite Hn, Hr; apply Z.div_mod; lia).
  assert (Hrb : 0 <= r < 2 ^ k) by (rewrite Hr; apply Z.mod_pos_bound; lia).
  assert (Hn0 : 0 <= n) by (rewrite Hn; apply Z.div_pos; lia).
  assert (Hmodf : modf (f_add (S754_finite false m e) (float_of_int 0))
                  = (float_of_parts false r e, float_of_parts false n 0)).
  { change (f_add (S754_finite false m e) (float_of_int 0)) with (S754_finite false m e).
    unfold modf. destruct (Z.leb_spec 0 e); [lia|]. reflexivity. }
  assert (Hint : int_of_float (float_of_parts false n 0) = Ok n).
  { rewrite float_of_parts_int; [reflexivity|]. 
    assert (n <= Zpos m).
    { rewrite Hn. apply Z.div_le_upper_bound; [lia|].
      rewrite <- (Z.mul_1_l (Zpos m)) at 1. apply Z.mul_le_mono_nonneg_r; lia. }
    lia. }
  assert (Hfr : fbound false 0 (float_of_parts false r e)).
  { apply float_of_parts_bound; try lia. replace (0 - e) with k by lia. lia. }
  destruct (usec_of_frac_bound _ Hfr) as (micro & Hmicro & Hmb).
  assert (Hsmall : n + micro / 1000000 < seconds_limit).
  { destruct Hlim as [Hlt|[-> Hlt]].
    - assert (n < 2 ^ 46).
      { assert (2 ^ 7 <= 2 ^ k) by (apply Z.pow_le_mono_r; lia).
        change (2 ^ 53) with (2 ^ 7 * 2 ^ 46) in Hm. nia. }
      assert (micro / 1000000 < 2).
      { apply Z.div_lt_upper_bound; [lia|]. change (2 ^ 20) with 1048576 in Hmb. lia. }
      unfold seconds_limit. change (2 ^ 46) with 70368744177664 in *. lia.
    - change (- -6) with 6 in *. subst k. 
      assert (Hr6 : 0 <= r < 64) by (change (2 ^ 6) with 64 in Hrb; lia).
      pose proof (usec_of_frac_64ths r Hr6) as Hex. rewrite Hex in Hmicro.
      injection Hmicro as <-.
      rewrite Z.div_small by lia.
      unfold seconds_limit, limit_mantissa in *. change (2 ^ 6) with 64 in *. lia. }
  pose proof (timedelta_norm n micro Hn0 ltac:(lia) Hsmall) as Hv.
  rewrite (timedelta_float_unfold _ _ _ n micro Hmodf Hint Hmicro).
  cbv zeta. destruct Hv as (Hd & Hs & Hus). simpl in Hd, Hs, Hus.
  destruct (Z.ltb_spec 999999999
             (Z.abs (n / 86400 + (n mod 86400 + micro / 1000000) / 86400))); [lia|].
  eexists; split; [reflexivity|]. repeat split; simpl; lia.
Qed.

Lemma is_float_mantissa s m e :
  is_float (S754_finite s m e) = true -> Zpos m < 2 ^ 53.
Proof.
  unfold is_float, valid_binary, bounded, canonical_mantissa.
  intros H. apply andb_prop in H as [H _]. apply Z.eqb_eq in H.
  pose proof (pos_lt_pow_digits m) as Hlt.
  assert (Zpos (digits2_pos m) <= 53) by (unfold fexp, emin, prec, emax in H; lia).
  assert (2 ^ Zpos (digits2_pos m) <= 2 ^ 53) by (apply Z.pow_le_mono_r; lia).
  lia.
Qed.

Lemma float_of_int_limit :
  float_of_int seconds_limit = S754_finite false 5529600000000000 (-6).
Proof. vm_compute. reflexivity. Qed.

Lemma f_ltb_limit m e :
  f_ltb (S754_finite false m e) (float_of_int seconds_limit) = true ->
  e < -6 \/ e = -6 /\ Zpos m < limit_mantissa.
Proof.
  rewrite float_of_int_limit. unfold f_ltb, SFltb, SFcompare.
  destruct (Z.compare_spec e (-6)) as [->|Hlt|Hgt];
    [|intros _; lia|intros H; discriminate H].
  destruct (Pos.compare_cont Eq m 5529600000000000) eqn:E; intros H; try discriminate H.
  apply (proj1 (Pos.compare_lt_iff m 5529600000000000)) in E.
  right. split; [reflexivity|]. exact (Pos2Z.pos_lt_pos _ _ E).
Qed.

Lemma timedelta_float_accept f :
  is_float f = true -> is_nan f = false -> f_ltb f f_zero = false ->
  f_ltb f (float_of_int seconds_limit) = true ->
  exists td, timedelta_of_seconds (VFloat f) = Ok td /\ td_valid td.
Proof.
  intros Hfl Hnan Hneg Hlim. destruct f as [s|s| |s m e].
  - exists (Timedelta 0 0 0). split; [destruct s; vm_compute; reflexivity|].
    unfold td_valid; simpl; lia.
  - rewrite float_of_int_limit in Hlim.
    destruct s; [discriminate Hneg|discriminate Hlim].
  - discriminate Hnan.
  - destruct s; [discriminate Hneg|].
    pose proof (f_ltb_limit m e Hlim) as Hl.
    apply timedelta_float_ok; [eapply is_float_mantissa; eassumption|lia|assumption].
Qed.

Lemma is_float_normal s m e :
  is_float (S754_finite s m e) = true -> -1074 < e -> 2 ^ 52 <= Zpos m.
Proof.
  unfold is_float, valid_binary, bounded, canonical_mantissa.
  intros H He. apply andb_prop in H as [H _]. apply Z.eqb_eq in H.
  assert (Hd : Zpos (digits2_pos m) = 53) by (unfold fexp, emin, prec, emax in H; lia).
  pose proof (pow_digits_le m) as Hle. rewrite Hd in Hle. exact Hle.
Qed.

Lemma f_ltb_limit_false m e :
  f_ltb (S754_finite false m e) (float_of_int seconds_limit) = false ->
  -6 < e \/ e = -6 /\ limit_mantissa <= Zpos m.
Proof.
  rewrite float_of_int_limit. unfold f_ltb, SFltb, SFcompare.
  destruct (Z.compare_spec e (-6)) as [->|Hlt|Hgt];
    [|intros H; discriminate H|intros _; lia].
  destruct (Pos.compare_cont Eq m 5529600000000000) eqn:E; intros H;
    try discriminate H; right; (split; [reflexivity|]).
  - apply (Pos.compare_eq m 5529600000000000) in E. subst m.
    unfold limit_mantissa. reflexivity.
  - apply (proj1 (Pos.compare_gt_iff m 5529600000000000)) in E.
    apply Z.lt_le_incl. exact (Pos2Z.pos_lt_pos _ _ E).
Qed.

(** From [10^9] days on, [timedelta] refuses the float. *)
Lemma timedelta_float_overflow m e :
  is_float (S754_finite false m e) = true ->
  (-6 < e \/ e = -6 /\ limit_mantissa <= Zpos m) ->
  exists err, timedelta_of_seconds (VFloat (S754_finite false m e)) = Raise err.
Proof.
  intros Hfl Hlim.
  pose proof (is_float_mantissa _ _ _ Hfl) as Hm.
  assert (Hadd : f_add (S754_finite false m e) (float_of_int 0) = S754_finite false m e)
    by reflexivity.
  assert (Hover : forall n micro, seconds_limit <= n -> 0 <= micro ->
            (999999999 <? Z.abs (n / 86400 + (n mod 86400 + micro / 1000000) / 86400))
            = true).
  { intros n micro Hn Hmicro. apply Z.ltb_lt. unfold seconds_limit in Hn.
    assert (1000000000 <= n / 86400) by (apply Z.div_le_lower_bound; lia).
    pose proof (Z.mod_pos_bound n 86400 ltac:(lia)).
    assert (0 <= micro / 1000000) by (apply Z.div_pos; lia).
    assert (0 <= (n mod 86400 + micro / 1000000) / 86400) by (apply Z.div_pos; lia).
    lia. }
  destruct (Z.leb_spec 0 e) as [He|He].
  - assert (Hn : seconds_limit <= Z.shiftl (Zpos m) e).
    { pose proof (is_float_normal _ _ _ Hfl ltac:(lia)) as Hnorm.
      rewrite Z.shiftl_mul_pow2 by lia.
      assert (1 <= 2 ^ e) by (pose proof (Z.pow_pos_nonneg 2 e); lia).
      change (2 ^ 52) with 4503599627370496 in Hnorm. unfold seconds_limit. nia. }
    exists OverflowError.
    rewrite (timedelta_float_unfold _ (S754_zero false) (S754_finite false m e)
               (Z.shiftl (Zpos m) e) 0).
    + cbv zeta. rewrite Hover by lia. reflexivity.
    + rewrite Hadd. unfold modf. destruct (Z.leb_spec 0 e); [reflexivity|lia].
    + unfold int_of_float. destruct (Z.leb_spec 0 e); [reflexivity|lia].
    + vm_compute. reflexivity.
  - set (k := - e).
    assert (Hk : 0 < 2 ^ k) by (apply Z.pow_pos_nonneg; lia).
    set (n := Z.shiftr (Zpos m) k).
    set (r := Z.land (Zpos m) (Z.ones k)).
    assert (Hn : n = Zpos m / 2 ^ k) by (apply Z.shiftr_div_pow2; lia).
    assert (Hr : r = Zpos m mod 2 ^ k) by (apply Z.land_ones; lia).
    assert (Hrb : 0 <= r < 2 ^ k) by (rewrite Hr; apply Z.mod_pos_bound; lia).
    assert (Hn0 : 0 <= n) by (rewrite Hn; apply Z.div_pos; lia).
    assert (Hmodf : modf (f_add (S754_finite false m e) (float_of_int 0))
                    = (float_of_parts false r e, float_of_parts false n 0)).
    { rewrite Hadd. unfold modf. destruct (Z.leb_spec 0 e); [lia|]. reflexivity. }
    assert (Hint : int_of_float (float_of_parts false n 0) = Ok n).
    { rewrite float_of_parts_int; [reflexivity|].
      assert (n <= Zpos m).
      { rewrite Hn. apply Z.div_le_upper_bound; [lia|].
        rewrite <- (Z.mul_1_l (Zpos m)) at 1. apply Z.mul_le_mono_nonneg_r; lia. }
      lia. }
    assert (Hfr : fbound false 0 (float_of_parts false r e)).
    { apply float_of_parts_bound; try lia. replace (0 - e) with k by lia. lia. }
    destruct (usec_of_frac_bound _ Hfr) as (micro & Hmicro & Hmb).
    assert (Hbig : seconds_limit <= n).
    { rewrite Hn. apply Z.div_le_lower_bound; [lia|].
      destruct Hlim as [Hgt|[-> Hge]].
      - pose proof (is_float_normal _ _ _ Hfl ltac:(lia)) as Hnorm.
        assert (2 ^ k <= 2 ^ 5) by (apply Z.pow_le_mono_r; lia).
        change (2 ^ 52) with 4503599627370496 in Hnorm.
        change (2 ^ 5) with 32 in *. unfold seconds_limit. nia.
      - subst k. change (2 ^ (- (-6))) with 64. unfold seconds_limit, limit_mantissa in *.
        lia. }
    exists OverflowError.
    rewrite (timedelta_float_unfold _ _ _ n micro Hmodf Hint Hmicro).
    cbv zeta. rewrite Hover by lia. reflexivity.
Qed.

(** ** [srt_timestamp] *)

Lemma pure_lift {A} (r : res A) : pure_in_M (lift r).
Proof. exists r. reflexivity. Qed.

Lemma pure_ret {A} (a : A) : pure_in_M (ret a).
Proof. exists (Ok a). reflexivity. Qed.

Lemma pure_bind {A B} (c : M A) (f : A -> M B) :
  pure_in_M c -> (forall a, pure_in_M (f a)) -> pure_in_M (bind c f).
Proof.
  intros [r Hr] Hf. destruct r as [a|e].
  - destruct (Hf a) as [r' Hr']. exists r'. intros w. unfold bind. rewrite Hr. apply Hr'.
  - exists (Raise e). intros w. unfold bind. rewrite Hr. reflexivity.
Qed.

Lemma srt_timestamp_pure v : pure_in_M (srt_timestamp v).
Proof.
  unfold srt_timestamp.
  repeat (apply pure_bind; [apply pure_lift|intros ?]).
  apply pure_ret.
Qed.

Lemma srt_timestamp_eq v w b td ts n :
  lt_zero v = Ok b ->
  timedelta_of_seconds (if b then VInt 0 else v) = Ok td ->
  total_seconds td = Ok ts ->
  float_round (mul_1000 ts) = Ok n ->
  srt_timestamp v w = (Ok (clock n), w).
Proof.
  intros Hb Htd Hts Hn. unfold srt_timestamp, bind, lift, ret.
  rewrite Hb, Htd, Hts, Hn. reflexivity.
Qed.

Lemma clock_form n : 0 <= n -> timestamp_form (clock n).
Proof.
  intros Hn. unfold clock.
  set (h := n / (3600 * 1000)). set (r1 := n mod (3600 * 1000)).
  set (m := r1 / (60 * 1000)). set (r2 := r1 mod (60 * 1000)).
  set (s := r2 / 1000). set (ms := r2 mod 1000).
  assert (Hh : 0 <= h) by (apply Z.div_pos; lia).
  assert (Hr1 : 0 <= r1 < 3600 * 1000) by (apply Z.mod_pos_bound; lia).
  assert (Hr2 : 0 <= r2 < 60 * 1000) by (apply Z.mod_pos_bound; lia).
  assert (Hm : 0 <= m <= 59).
  { split; [apply Z.div_pos; lia|]. assert (m < 60); [|lia].
    apply Z.div_lt_upper_bound; lia. }
  assert (Hs : 0 <= s <= 59).
  { split; [apply Z.div_pos; lia|]. assert (s < 60); [|lia].
    apply Z.div_lt_upper_bound; lia. }
  assert (Hms : 0 <= ms < 1000) by (apply Z.mod_pos_bound; lia).
  destruct (format_0d_field 2 h Hh) as (Dh & Vh & Lh & Wh).
  destruct (format_0d_field 2 m ltac:(lia)) as (Dm & Vm & _ & Wm).
  destruct (format_0d_field 2 s ltac:(lia)) as (Ds & Vs & _ & Ws).
  destruct (format_0d_field 3 ms ltac:(lia)) as (Dms & Vms & _ & Wms).
  exists (format_0d 2 h), (format_0d 2 m), (format_0d 2 s), (format_0d 3 ms).
  repeat split; try assumption; try lia.
  - apply (Wm 1%nat); lia.
  - apply (Ws 1%nat); lia.
  - apply (Wms 2%nat); lia.
  - intros Hlt. apply (Wh 1%nat); lia.
  - intros Hge. pose proof (dec_value_bound _ Dh) as Hb. rewrite Vh in *.
    destruct (length (format_0d 2 h)) as [|[|[|k]]] eqn:El; lia.
Qed.

Lemma usec_zero :
  float_round (f_add (float_of_int 0) (f_mul f_zero (float_of_int 1000000))) = Ok 0.
Proof. vm_compute. reflexivity. Qed.

Lemma timedelta_int_ok z :
  0 <= z < seconds_limit ->
  exists td, timedelta_of_seconds (VInt z) = Ok td /\ td_valid td.
Proof.
  intros Hz. unfold timedelta_of_seconds. cbn [res_bind]. rewrite usec_zero.
  cbn [res_bind].
  pose proof (timedelta_norm z 0 ltac:(lia) ltac:(lia)
                ltac:(change (0 / 1000000) with 0; lia)) as Hv.
  change (0 / 1000000) with 0 in *. change (0 mod 1000000) with 0 in *.
  destruct Hv as (Hd & Hs & Hus). simpl in Hd, Hs, Hus.
  destruct (Z.ltb_spec 999999999 (Z.abs (z / 86400 + (z mod 86400 + 0) / 86400)));
    [lia|].
  eexists; split; [reflexivity|]. repeat split; simpl; lia.
Qed.

(** On acceptable seconds [srt_timestamp] returns a well-formed timestamp
    and leaves the world alone. *)
Lemma srt_timestamp_accepts v :
  ok_seconds v = true ->
  exists s, (forall w, srt_timestamp v w = (Ok s, w)) /\ timestamp_form s.
Proof.
  intros Hok.
  assert (Htd : exists b td, lt_zero v = Ok b /\
            timedelta_of_seconds (if b then VInt 0 else v) = Ok td /\ td_valid td).
  { destruct v as [|z|f|s]; try discriminate Hok; simpl in Hok.
    - exists (z <? 0). apply Z.ltb_lt in Hok. unfold lt_zero.
      destruct (Z.ltb_spec z 0).
      + destruct (timedelta_int_ok 0) as (td & Htd & Hv); [unfold seconds_limit; lia|].
        exists td. auto.
      + destruct (timedelta_int_ok z) as (td & Htd & Hv); [lia|].
        exists td. auto.
    - apply andb_prop in Hok as [Hok Hlim]. apply andb_prop in Hok as [Hfl Hnan].
      apply negb_true_iff in Hnan.
      exists (f_ltb f f_zero). unfold lt_zero. destruct (f_ltb f f_zero) eqn:Eneg.
      + destruct (timedelta_int_ok 0) as (td & Htd & Hv); [unfold seconds_limit; lia|].
        exists td. auto.
      + destruct (timedelta_float_accept f Hfl Hnan Eneg Hlim) as (td & Htd & Hv).
        exists td. auto. }
  destruct Htd as (b & td & Hb & Htd & Hv).
  destruct (total_ms_of_valid td Hv) as (ts & n & Hts & Hn & Hn0).
  exists (clock n). split.
  - intros w. eapply srt_timestamp_eq; eassumption.
  - apply clock_form; assumption.
Qed.

Lemma file_write_run f text w : file_write f text w = (Ok tt, written f text w).
Proof. reflexivity. Qed.



Lemma written_nil f w : written f [] w = w.
Proof.
  destruct w as [fs ev]. unfold written. simpl. f_equal.
  apply alter_id. intros [enc txt] _. unfold append_text. simpl.
  rewrite app_nil_r. reflexivity.
Qed.

Lemma written_written f t1 t2 w :
  written f t2 (written f t1 w) = written f (t1 ++ t2) w.
Proof.
  unfold written. simpl. f_equal. rewrite alter_alter_eq.
  apply alter_ext. intros [enc txt] _. unfold append_text. simpl.
  rewrite app_assoc. reflexivity.
Qed.




(** ** [write_srt] and [main] against their environment *)

Lemma splitext_app p : p = fst (splitext p) ++ snd (splitext p).
Proof.
  unfold splitext.
  destruct (rfind 47 p <? rfind 46 p); [|simpl; rewrite app_nil_r; reflexivity].
  destruct (existsb _ _); simpl.
  - rewrite take_drop. reflexivity.
  - rewrite app_nil_r. reflexivity.
Qed.

Lemma truthy_Some_ne l : l <> [] -> truthy (Some l) = true.
Proof. destruct l; [congruence|reflexivity]. Qed.





Lemma write_block_events f i seg w :
  events (snd (write_block f i seg w)) = events w.
Proof.
  unfold write_block, bind, lift.
  destruct (srt_timestamp_pure (seg_get seg "start" (VFloat f_zero))) as [ra Ha].
  destruct (srt_timestamp_pure (seg_get seg "end" (VFloat f_zero))) as [rb Hb].
  rewrite Ha. destruct ra; [|reflexivity].
  rewrite Hb. destruct rb; [|reflexivity].
  destruct (val_strip (seg_get seg "text" (VStr []))); reflexivity.
Qed.

Lemma write_blocks_events f segs : forall i w,
  events (snd (write_blocks f i segs w)) = events w.
Proof.
  induction segs as [|seg segs IH]; intros i w; [reflexivity|].
  cbn [write_blocks]. unfold bind.
  pose proof (write_block_events f i seg w) as Hb.
  destruct (write_block f i seg w) as [[[]|e] w1]; simpl in Hb.
  - rewrite IH. exact Hb.
  - exact Hb.
Qed.

(** Stepping through [main]: the file check and the loading of the model,
    then the call of the engine. *)
Ltac main_loads Hfile Hload :=
  unfold main; rewrite Hfile;
  unfold bind at 1; cbn [negb ret];
  unfold bind at 1; unfold print at 1, emit at 1;
  unfold bind at 1; unfold whisper_load_model at 1;
  unfold bind at 1; unfold emit at 1, lift at 1; rewrite Hload.

Ltac main_calls Htr :=
  unfold bind at 1; unfold print at 1, emit at 1;
  unfold bind at 1; unfold model_transcribe at 1;
  unfold bind at 1; unfold emit at 1, lift at 1; rewrite Htr.

Ltac same_world :=
  unfold logged, call_events; cbn [files events];
  rewrite <- ?app_assoc; reflexivity.

Section Main.
Variable E : env.

Lemma write_srt_events segs path w :
  events (snd (write_srt E segs path w)) = events w.
Proof.
  unfold write_srt, bind, open_w. destruct (can_open_w E path); [|reflexivity].
  rewrite write_blocks_events. reflexivity.
Qed.

Lemma main_not_found a w :
  isfile E (a_input a) = false ->
  main E a w
  = (Raise (SystemExit 1),
     logged [EPrint Stderr (lit "Input not found: " ++ a_input a)] w).
Proof. intros Hfile. unfold main. rewrite Hfile. reflexivity. Qed.

Lemma main_load_fails a w e :
  isfile E (a_input a) = true ->
  load_model E (a_model a) (a_device a) = Raise e ->
  main E a w
  = (Raise e,
     logged [EPrint Stdout (lit "Loading Whisper model '" ++ a_model a ++ lit "'...");
             ELoadModel (a_model a) (a_device a)] w).
Proof. intros Hfile Hload. main_loads Hfile Hload. f_equal. same_world. Qed.

Lemma main_transcribe_fails a w m e :
  isfile E (a_input a) = true ->
  load_model E (a_model a) (a_device a) = Ok m ->
  transcribe E m (a_input a) (make_kwargs a) = Raise e ->
  main E a w = (Raise e, logged (call_events a m) w).
Proof.
  intros Hfile Hload Htr. main_loads Hfile Hload. main_calls Htr.
  f_equal. same_world.
Qed.

Lemma main_nothing_to_write a w m r :
  isfile E (a_input a) = true ->
  load_model E (a_model a) (a_device a) = Ok m ->
  transcribe E m (a_input a) (make_kwargs a) = Ok r ->
  default [] (tr_segments r) = [] ->
  main E a w
  = (Raise (SystemExit 2),
     logged (call_events a m
             ++ [EPrint Stderr (lit "No segments returned. Nothing to write.")]) w).
Proof.
  intros Hfile Hload Htr Hseg. main_loads Hfile Hload. main_calls Htr.
  rewrite Hseg. unfold bind, print, emit, sys_exit, raise.
  f_equal. same_world.
Qed.

(** [main] up to the call of [write_srt]. *)
Lemma main_reaches_write a w m r seg segs :
  isfile E (a_input a) = true ->
  load_model E (a_model a) (a_device a) = Ok m ->
  transcribe E m (a_input a) (make_kwargs a) = Ok r ->
  tr_segments r = Some (seg :: segs) ->
  main E a w =
    (write_srt E (seg :: segs) (output_path a r) ;;
     print Stdout (lit "Done. Wrote subtitles to: " ++ output_path a r))
      (logged (call_events a m) w).
Proof.
  intros Hfile Hload Htr Hseg. main_loads Hfile Hload. main_calls Htr.
  rewrite Hseg. cbn [default from_option id].
  unfold bind at 1. cbn [ret].
  replace (logged (call_events a m) w)
    with (logged [ETranscribe m (a_input a) (make_kwargs a)]
            (logged [EPrint Stdout (lit "Transcribing '" ++ a_input a ++ lit "'...")]
               (logged [ELoadModel (a_model a) (a_device a)]
                  (logged [EPrint Stdout
                             (lit "Loading Whisper model '" ++ a_model a ++ lit "'...")]
                     w))))
    by same_world.
  reflexivity.
Qed.
End Main.

Lemma only_call_events a evs :
  Forall (fun ev => match ev with
                    | ETranscribe _ p kw => p = a_input a /\ kw = make_kwargs a
                    | _ => True
                    end) evs ->
  forall m p kw, ETranscribe m p kw ∈ evs -> p = a_input a /\ kw = make_kwargs a.
Proof.
  intros Hall m p kw Hel. rewrite Forall_forall in Hall. apply (Hall _ Hel).
Qed.

Lemma call_events_call a m rest :
  ETranscribe m (a_input a) (make_kwargs a) ∈ call_events a m ++ rest.
Proof.
  apply elem_of_app. left. unfold call_events.
  do 3 apply list_elem_of_further. apply list_elem_of_here.
Qed.

Lemma fp16_of_kwargs a :
  ((a_device a = None \/ a_device a = Some (lit "cuda")) ->
   kw_fp16 (make_kwargs a) = a_fp16 a) /\
  (a_device a <> None -> a_device a <> Some (lit "cuda") ->
   kw_fp16 (make_kwargs a) = false).
Proof.
  unfold make_kwargs. cbn [kw_fp16]. split.
  - intros [->| ->]; reflexivity.
  - intros Hnone Hcuda. destruct (a_device a) as [d|]; [|congruence].
    cbn [opt_str_eqb]. rewrite bool_decide_eq_false_2 by congruence.
    rewrite bool_decide_eq_false_2 by congruence. reflexivity.
Qed.

Section MainTrace.
Variable E : env.

(** Whatever happens, [main] calls the engine at most with its own input
    path and keyword arguments, and it does call it once the input exists
    and the model loads. *)
Lemma main_trace (a : args) (w : world) :
  exists evs,
    events (snd (main E a w)) = events w ++ evs /\
    (forall m p kw, ETranscribe m p kw ∈ evs ->
                    p = a_input a /\ kw = make_kwargs a) /\
    (forall m, isfile E (a_input a) = true ->
               load_model E (a_model a) (a_device a) = Ok m ->
               ETranscribe m (a_input a) (make_kwargs a) ∈ evs).
Proof.
  destruct (isfile E (a_input a)) eqn:Hfile.
  2: { rewrite (main_not_found E a w Hfile). eexists. split; [reflexivity|].
       split; [apply only_call_events; repeat constructor|discriminate]. }
  destruct (load_model E (a_model a) (a_device a)) as [m|e] eqn:Hload.
  2: { rewrite (main_load_fails E a w e Hfile Hload).
       eexists. split; [reflexivity|].
       split; [apply only_call_events; repeat constructor|discriminate]. }
  assert (Hin : forall rest m', true = true -> Ok m = Ok m' ->
            ETranscribe m' (a_input a) (make_kwargs a) ∈ call_events a m ++ rest).
  { intros rest m' _ [= <-]. apply call_events_call. }
  destruct (transcribe E m (a_input a) (make_kwargs a)) as [r|e] eqn:Htr.
  2: { rewrite (main_transcribe_fails E a w m e Hfile Hload Htr).
       exists (call_events a m ++ []). split; [rewrite app_nil_r; reflexivity|].
       split; [apply only_call_events; repeat constructor|apply Hin]. }
  destruct (default [] (tr_segments r)) as [|seg segs] eqn:Hseg.
  - rewrite (main_nothing_to_write E a w m r Hfile Hload Htr Hseg).
    eexists. split; [reflexivity|].
    split; [apply only_call_events; repeat constructor|apply Hin].
  - assert (Hseg' : tr_segments r = Some (seg :: segs)).
    { destruct (tr_segments r); [simpl in Hseg; congruence|discriminate Hseg]. }
    rewrite (main_reaches_write E a w m r seg segs Hfile Hload Htr Hseg').
    unfold bind.
    pose proof (write_srt_events E (seg :: segs) (output_path a r)
                  (logged (call_events a m) w)) as Hw.
    destruct (write_srt E (seg :: segs) (output_path a r) _) as [[[]|e] w2];
      cbn [snd] in Hw |- *.
    + unfold print, emit. cbn [snd logged events]. rewrite Hw. cbn [logged events].
      eexists. split; [rewrite <- app_assoc; reflexivity|].
      split; [apply only_call_events; repeat constructor|apply Hin].
    + rewrite Hw. cbn [logged events].
      exists (call_events a m ++ []). split; [rewrite app_nil_r; reflexivity|].
      split; [apply only_call_events; repeat constructor|apply Hin].
Qed.
End MainTrace.

(** A negative float is below the limit. *)
Lemma f_ltb_zero_limit f :
  f_ltb f f_zero = true -> f_ltb f (float_of_int seconds_limit) = true.
Proof.
  rewrite float_of_int_limit.
  destruct f as [s|[]| |[] m e]; intros H; try discriminate H; reflexivity.
Qed.

(** Outside the domain of [srt_timestamp_accepts], [srt_timestamp] raises. *)
Lemma srt_timestamp_raises_outside (f : float) (w : world) :
  is_float f = true ->
  is_nan f = true \/ f_ltb f (float_of_int seconds_limit) = false ->
  exists err, srt_timestamp (VFloat f) w = (Raise err, w).
Proof.
  intros Hfl Hout.
  assert (Htd : f_ltb f f_zero = false /\
                exists err, timedelta_of_seconds (VFloat f) = Raise err).
  { destruct Hout as [Hnan|Hlim].
    - destruct f; try discriminate Hnan. split; [reflexivity|].
      exists ValueError. vm_compute. reflexivity.
    - split.
      + destruct (f_ltb f f_zero) eqn:Eneg; [|reflexivity].
        rewrite (f_ltb_zero_limit f Eneg) in Hlim. discriminate Hlim.
      + destruct f as [s|s| |s m e].
        * rewrite float_of_int_limit in Hlim. discriminate Hlim.
        * destruct s; [rewrite float_of_int_limit in Hlim; discriminate Hlim|].
          exists OverflowError. vm_compute. reflexivity.
        * exists ValueError. vm_compute. reflexivity.
        * destruct s; [rewrite float_of_int_limit in Hlim; discriminate Hlim|].
          apply timedelta_float_overflow; [assumption|].
          apply f_ltb_limit_false; assumption. }
  destruct Htd as (Hneg & err & Herr). exists err.
  unfold srt_timestamp, bind, lift. cbn [lt_zero]. rewrite Hneg, Herr. reflexivity.
Qed.




(** * The claims *)

(** ** Worked examples *)

(** The segments of the sample, written: numbered 1 and 2 whatever their
    own [id], each block closed by an empty line. *)
Example write_srt_sample :
  write_srt env_sample sample_segments (lit "out.srt") empty_world
  = (Ok tt,
     {| files := {[ lit "out.srt" :=
          {| tf_encoding := lit "utf-8";
             tf_text := lit "1
00:00:00,000 --> 00:00:01,500
Hello

2
00:00:01,500 --> 00:00:03,000
World

" |} ]};
        events := [] |}).
Proof. vm_compute. reflexivity. Qed.

(** [0.0], [3661.234], [59.9995] and 100 hours. *)
Example srt_timestamp_examples :
  srt_timestamp (VFloat f_zero) empty_world = (Ok (lit "00:00:00,000"), empty_world) /\
  srt_timestamp (VFloat (float_of_ratio 3661234 1000)) empty_world
    = (Ok (lit "01:01:01,234"), empty_world) /\
  srt_timestamp (VFloat (float_of_ratio 599995 10000)) empty_world
    = (Ok (lit "00:01:00,000"), empty_world) /\
  srt_timestamp (VFloat (float_of_int 360000)) empty_world
    = (Ok (lit "100:00:00,000"), empty_world).
Proof. repeat split; vm_compute; reflexivity. Qed.

(** [text.replace("  ", " ")] on two, three, four and five spaces. *)
Example collapse_examples :
  collapse (lit "a  b") = lit "a b" /\
  collapse (lit "a   b") = lit "a  b" /\
  collapse (lit "a    b") = lit "a  b" /\
  collapse (lit "a     b") = lit "a   b".
Proof. repeat split. Qed.

(** ** C1: the file [write_srt] writes *)




(** ** C2: the form of a timestamp *)




(** ** C3: negative input *)

(** C3: for every negative float, [-inf] included, [srt_timestamp] returns
    exactly [00:00:00,000]. *)
Theorem srt_timestamp_negative (f : float) (w : world) :
  f_ltb f f_zero = true ->
  srt_timestamp (VFloat f) w = (Ok (lit "00:00:00,000"), w).
Proof.
  intros Hneg. unfold srt_timestamp, bind, lift, ret. cbn [lt_zero]. rewrite Hneg.
  vm_compute. reflexivity.
Qed.

Lemma srt_timestamp_negative_witness :
  srt_timestamp (VFloat (float_of_ratio (-5) 1)) empty_world
  = (Ok (lit "00:00:00,000"), empty_world).
Proof.
  apply (srt_timestamp_negative (float_of_ratio (-5) 1) empty_world).
  vm_compute. reflexivity.
Defined.

(** ** C4: the text of a block *)

(** C4: in every block [write_srt] emits, the text line is the segment's
    text stripped of leading and trailing whitespace, then passed through
    [replace("  ", " ")]: a run of [n] spaces between two other characters
    comes out as [(n + 1) / 2] spaces, so exactly two spaces become one and
    three become two, not one. *)
Theorem write_srt_text_cleanup (f : pystr) (i : Z) (seg : segment) (w w' : world) :
  write_block f i seg w = (Ok tt, w') ->
  exists start_ts end_ts s lead trail,
    seg_get seg "text" (VStr []) = VStr s /\
    s = lead ++ str_strip s ++ trail /\
    all_space lead = true /\ all_space trail = true /\
    (forall c, head (str_strip s) = Some c -> is_space c = false) /\
    (forall c, last (str_strip s) = Some c -> is_space c = false) /\
    w' = written f (srt_block i start_ts end_ts (collapse (str_strip s))) w /\
    (forall u v n,
        str_strip s = u ++ replicate n space ++ v ->
        last u <> Some space -> head v <> Some space ->
        collapse (str_strip s)
        = collapse u ++ replicate ((n + 1) / 2) space ++ collapse v) /\
    (forall u v,
        str_strip s = u ++ [space; space] ++ v ->
        last u <> Some space -> head v <> Some space ->
        collapse (str_strip s) = collapse u ++ [space] ++ collapse v) /\
    (forall u v,
        str_strip s = u ++ [space; space; space] ++ v ->
        last u <> Some space -> head v <> Some space ->
        collapse (str_strip s) = collapse u ++ [space; space] ++ collapse v).
Proof.
  intros Hrun. unfold write_block, bind, lift in Hrun.
  destruct (srt_timestamp_pure (seg_get seg "start" (VFloat f_zero))) as [ra Ha].
  destruct (srt_timestamp_pure (seg_get seg "end" (VFloat f_zero))) as [rb Hb].
  rewrite Ha in Hrun. destruct ra as [a|]; [|discriminate Hrun].
  rewrite Hb in Hrun. destruct rb as [b|]; [|discriminate Hrun].
  destruct (seg_get seg "text" (VStr [])) as [| | |s] eqn:Et;
    try discriminate Hrun.
  cbn [val_strip] in Hrun. rewrite file_write_run in Hrun.
  injection Hrun as <-.
  destruct (str_strip_spec s) as (l & r & Hs & Hl & Hr & Hhd & Hlast).
  exists a, b, s, l, r.
  repeat split; try assumption.
  - intros u v n -> Hu Hv. apply collapse_between; assumption.
  - intros u v -> Hu Hv. apply (collapse_between u 2 v); assumption.
  - intros u v -> Hu Hv. apply (collapse_between u 3 v); assumption.
Qed.

Lemma write_srt_text_cleanup_witness :
  exists start_ts end_ts s lead trail,
    seg_get three_spaces_segment "text" (VStr []) = VStr s /\
    s = lead ++ str_strip s ++ trail /\
    all_space lead = true /\ all_space trail = true /\
    (forall c, head (str_strip s) = Some c -> is_space c = false) /\
    (forall c, last (str_strip s) = Some c -> is_space c = false) /\
    written (lit "out.srt")
      (lit "1
00:00:01,000 --> 00:00:02,000
a  b c

") empty_world
    = written (lit "out.srt")
        (srt_block 1 start_ts end_ts (collapse (str_strip s))) empty_world /\
    (forall u v n,
        str_strip s = u ++ replicate n space ++ v ->
        last u <> Some space -> head v <> Some space ->
        collapse (str_strip s)
        = collapse u ++ replicate ((n + 1) / 2) space ++ collapse v) /\
    (forall u v,
        str_strip s = u ++ [space; space] ++ v ->
        last u <> Some space -> head v <> Some space ->
        collapse (str_strip s) = collapse u ++ [space] ++ collapse v) /\
    (forall u v,
        str_strip s = u ++ [space; space; space] ++ v ->
        last u <> Some space -> head v <> Some space ->
        collapse (str_strip s) = collapse u ++ [space; space] ++ collapse v).
Proof.
  apply (write_srt_text_cleanup (lit "out.srt") 1 three_spaces_segment empty_world).
  vm_compute. reflexivity.
Defined.

(** ** C5: missing fields *)



(** The block of a segment with no field at all. *)
Example write_block_empty_segment :
  write_block (lit "out.srt") 4 ∅ empty_world
  = (Ok tt, written (lit "out.srt") (lit "4
00:00:00,000 --> 00:00:00,000


") empty_world).
Proof. vm_compute. reflexivity. Qed.

(** ** C6 to C8, C10: the runs of [main] *)

Section MainClaims.
Variable E : env.

(** C6: when the input path is not an existing file, [main] prints one
    message to the error stream and exits with code 1; nothing else
    happens: the model is not loaded, the engine is not called, no file
    is written. *)
Theorem main_input_not_found (a : args) (w : world) :
  isfile E (a_input a) = false ->
  exists w',
    main E a w = (Raise (SystemExit 1), w') /\
    exit_status (fst (main E a w)) = 1 /\
    files w' = files w /\
    events w' = events w ++ [EPrint Stderr (lit "Input not found: " ++ a_input a)].
Proof.
  intros Hfile. rewrite (main_not_found E a w Hfile).
  eexists. split; [reflexivity|]. repeat split.
Qed.

(** C7: when the engine returns without segments (none, or no
    ["segments"] key), [main] prints a message to the error stream and
    exits with code 2; [write_srt] is not called and no file is written. *)
Theorem main_no_segments (a : args) (w : world) (m : whisper_model)
        (r : transcription) :
  isfile E (a_input a) = true ->
  load_model E (a_model a) (a_device a) = Ok m ->
  transcribe E m (a_input a) (make_kwargs a) = Ok r ->
  default [] (tr_segments r) = [] ->
  exists w',
    main E a w = (Raise (SystemExit 2), w') /\
    exit_status (fst (main E a w)) = 2 /\
    files w' = files w /\
    events w' = events w ++ call_events a m
                ++ [EPrint Stderr (lit "No segments returned. Nothing to write.")].
Proof.
  intros Hfile Hload Htr Hseg.
  rewrite (main_nothing_to_write E a w m r Hfile Hload Htr Hseg).
  eexists. split; [reflexivity|]. repeat split.
Qed.


(** C10: once the input exists and the model loads, [main] calls the
    engine, and every call it makes carries the same keyword arguments,
    whose [fp16] is the [--fp16] flag when [--device] is unset or is
    [cuda], and is false for every other device. *)
Theorem main_fp16_gate (a : args) (w : world) (m : whisper_model) :
  isfile E (a_input a) = true ->
  load_model E (a_model a) (a_device a) = Ok m ->
  exists evs kw,
    events (snd (main E a w)) = events w ++ evs /\
    ETranscribe m (a_input a) kw ∈ evs /\
    (forall m' p kw', ETranscribe m' p kw' ∈ evs -> kw' = kw) /\
    ((a_device a = None \/ a_device a = Some (lit "cuda")) ->
     kw_fp16 kw = a_fp16 a) /\
    (a_device a <> None -> a_device a <> Some (lit "cuda") ->
     kw_fp16 kw = false).
Proof.
  intros Hfile Hload.
  destruct (main_trace E a w) as (evs & Hev & Honly & Hcall).
  exists evs, (make_kwargs a).
  split; [exact Hev|]. split; [apply Hcall; assumption|].
  split; [intros m' p kw' Hel; apply (Honly m' p kw' Hel)|].
  apply fp16_of_kwargs.
Qed.
End MainClaims.

Lemma main_input_not_found_witness :
  exists w',
    main env_sample args_missing empty_world = (Raise (SystemExit 1), w') /\
    exit_status (fst (main env_sample args_missing empty_world)) = 1 /\
    files w' = files empty_world /\
    events w' = events empty_world
                ++ [EPrint Stderr (lit "Input not found: " ++ a_input args_missing)].
Proof.
  apply (main_input_not_found env_sample args_missing empty_world). reflexivity.
Defined.

Lemma main_no_segments_witness :
  exists w',
    main env_silent args_sample empty_world = (Raise (SystemExit 2), w') /\
    exit_status (fst (main env_silent args_sample empty_world)) = 2 /\
    files w' = files empty_world /\
    events w' = events empty_world
                ++ call_events args_sample
                     {| wm_name := lit "base"; wm_device := None |}
                ++ [EPrint Stderr (lit "No segments returned. Nothing to write.")].
Proof.
  apply (main_no_segments env_silent args_sample empty_world
           {| wm_name := lit "base"; wm_device := None |}
           {| tr_segments := Some []; tr_language := None |}); reflexivity.
Defined.


Lemma main_fp16_gate_witness :
  exists evs kw,
    events (snd (main env_sample args_cpu empty_world)) = events empty_world ++ evs /\
    ETranscribe {| wm_name := lit "base"; wm_device := Some (lit "cpu") |}
                (a_input args_cpu) kw ∈ evs /\
    (forall m' p kw', ETranscribe m' p kw' ∈ evs -> kw' = kw) /\
    ((a_device args_cpu = None \/ a_device args_cpu = Some (lit "cuda")) ->
     kw_fp16 kw = a_fp16 args_cpu) /\
    (a_device args_cpu <> None -> a_device args_cpu <> Some (lit "cuda") ->
     kw_fp16 kw = false).
Proof.
  apply (main_fp16_gate env_sample args_cpu empty_world
           {| wm_name := lit "base"; wm_device := Some (lit "cpu") |}); reflexivity.
Defined.

(** A whole run: [talk.mp4], French detected, written to [talk.fr.srt]. *)
Example main_sample_run :
  let '(r, w) := main env_sample args_sample empty_world in
  exit_status r = 0 /\
  dom (files w) = {[ lit "talk.fr.srt" ]} /\
  last (events w) = Some (EPrint Stdout (lit "Done. Wrote subtitles to: talk.fr.srt")).
Proof. vm_compute. repeat split. Qed.

(** On the CPU the [--fp16] flag does not reach the engine, and a forced
    language names the file. *)
Example main_cpu_run :
  let '(r, w) := main env_sample args_cpu empty_world in
  exit_status r = 0 /\
  dom (files w) = {[ lit "talk.en.srt" ]} /\
  kw_fp16 (make_kwargs args_cpu) = false /\
  a_fp16 args_cpu = true.
Proof. vm_compute. repeat split. Qed.

(** ** C9: [srt_timestamp] is a function of its argument *)

(** C9: two evaluations of [srt_timestamp] on the same float, in whatever
    worlds, give the same result (string or exception), and neither
    changes the world it runs in. *)
Theorem srt_timestamp_deterministic (f : float) (w1 w2 : world) :
  fst (srt_timestamp (VFloat f) w1) = fst (srt_timestamp (VFloat f) w2) /\
  snd (srt_timestamp (VFloat f) w1) = w1 /\
  snd (srt_timestamp (VFloat f) w2) = w2.
Proof.
  destruct (srt_timestamp_pure (VFloat f)) as [r Hr].
  rewrite !Hr. repeat split.
Qed.

(** * Further properties *)

(** ** The exceptions of [srt_timestamp] and of the loop body *)

Lemma timedelta_int_overflow z :
  seconds_limit <= z -> timedelta_of_seconds (VInt z) = Raise OverflowError.
Proof.
  intros Hz. unfold timedelta_of_seconds. cbn [res_bind]. rewrite usec_zero.
  cbn [res_bind]. change (0 / 1000000) with 0. change (0 mod 1000000) with 0.
  unfold seconds_limit in Hz.
  assert (1000000000 <= z / 86400) by (apply Z.div_le_lower_bound; lia).
  pose proof (Z.mod_pos_bound z 86400 ltac:(lia)).
  assert (0 <= (z mod 86400 + 0) / 86400) by (apply Z.div_pos; lia).
  destruct (Z.ltb_spec 999999999 (Z.abs (z / 86400 + (z mod 86400 + 0) / 86400)));
    [reflexivity|lia].
Qed.

Lemma timedelta_raises_only f err :
  timedelta_of_seconds (VFloat f) = Raise err ->
  err = OverflowError \/ err = ValueError.
Proof.
  unfold timedelta_of_seconds. cbn [res_bind].
  destruct (modf (f_add f (float_of_int 0))) as [fr ip].
  destruct (int_of_float ip) as [n|e1] eqn:E1; cbn [res_bind].
  - destruct (float_round _) as [micro|e2] eqn:E2; cbn [res_bind].
    + destruct (_ <? _); intros H; [injection H as <-; auto|discriminate H].
    + intros [= <-]. 
      destruct (f_add (float_of_int 0) _); simpl in E2; try discriminate E2;
        try (injection E2 as <-; auto).
      destruct (0 <=? e); discriminate E2.
  - intros [= <-]. destruct ip; simpl in E1; try discriminate E1;
      injection E1 as <-; auto.
Qed.

(** From [10^9] days on, [timedelta] raises [OverflowError]. *)
Lemma timedelta_float_overflow_error m e :
  is_float (S754_finite false m e) = true ->
  (-6 < e \/ e = -6 /\ limit_mantissa <= Zpos m) ->
  timedelta_of_seconds (VFloat (S754_finite false m e)) = Raise OverflowError.
Proof.
  intros Hfl Hlim.
  pose proof (is_float_mantissa _ _ _ Hfl) as Hm.
  assert (Hadd : f_add (S754_finite false m e) (float_of_int 0) = S754_finite false m e)
    by reflexivity.
  assert (Hover : forall n micro, seconds_limit <= n -> 0 <= micro ->
            (999999999 <? Z.abs (n / 86400 + (n mod 86400 + micro / 1000000) / 86400))
            = true).
  { intros n micro Hn Hmicro. apply Z.ltb_lt. unfold seconds_limit in Hn.
    assert (1000000000 <= n / 86400) by (apply Z.div_le_lower_bound; lia).
    pose proof (Z.mod_pos_bound n 86400 ltac:(lia)).
    assert (0 <= micro / 1000000) by (apply Z.div_pos; lia).
    assert (0 <= (n mod 86400 + micro / 1000000) / 86400) by (apply Z.div_pos; lia).
    lia. }
  destruct (Z.leb_spec 0 e) as [He|He].
  - assert (Hn : seconds_limit <= Z.shiftl (Zpos m) e).
    { pose proof (is_float_normal _ _ _ Hfl ltac:(lia)) as Hnorm.
      rewrite Z.shiftl_mul_pow2 by lia.
      assert (1 <= 2 ^ e) by (pose proof (Z.pow_pos_nonneg 2 e); lia).
      change (2 ^ 52) with 4503599627370496 in Hnorm. unfold seconds_limit. nia. }
    rewrite (timedelta_float_unfold _ (S754_zero false) (S754_finite false m e)
               (Z.shiftl (Zpos m) e) 0).
    + cbv zeta. rewrite Hover by lia. reflexivity.
    + rewrite Hadd. unfold modf. destruct (Z.leb_spec 0 e); [reflexivity|lia].
    + unfold int_of_float. destruct (Z.leb_spec 0 e); [reflexivity|lia].
    + vm_compute. reflexivity.
  - set (k := - e).
    assert (Hk : 0 < 2 ^ k) by (apply Z.pow_pos_nonneg; lia).
    set (n := Z.shiftr (Zpos m) k).
    set (r := Z.land (Zpos m) (Z.ones k)).
    assert (Hn : n = Zpos m / 2 ^ k) by (apply Z.shiftr_div_pow2; lia).
    assert (Hr : r = Zpos m mod 2 ^ k) by (apply Z.land_ones; lia).
    assert (Hrb : 0 <= r < 2 ^ k) by (rewrite Hr; apply Z.mod_pos_bound; lia).
    assert (Hn0 : 0 <= n) by (rewrite Hn; apply Z.div_pos; lia).
    assert (Hmodf : modf (f_add (S754_finite false m e) (float_of_int 0))
                    = (float_of_parts false r e, float_of_parts false n 0)).
    { rewrite Hadd. unfold modf. destruct (Z.leb_spec 0 e); [lia|]. reflexivity. }
    assert (Hint : int_of_float (float_of_parts false n 0) = Ok n).
    { rewrite float_of_parts_int; [reflexivity|].
      assert (n <= Zpos m).
      { rewrite Hn. apply Z.div_le_upper_bound; [lia|].
        rewrite <- (Z.mul_1_l (Zpos m)) at 1. apply Z.mul_le_mono_nonneg_r; lia. }
      lia. }
    assert (Hfr : fbound false 0 (float_of_parts false r e)).
    { apply float_of_parts_bound; try lia. replace (0 - e) with k by lia. lia. }
    destruct (usec_of_frac_bound _ Hfr) as (micro & Hmicro & Hmb).
    assert (Hbig : seconds_limit <= n).
    { rewrite Hn. apply Z.div_le_lower_bound; [lia|].
      destruct Hlim as [Hgt|[-> Hge]].
      - pose proof (is_float_normal _ _ _ Hfl ltac:(lia)) as Hnorm.
        assert (2 ^ k <= 2 ^ 5) by (apply Z.pow_le_mono_r; lia).
        change (2 ^ 52) with 4503599627370496 in Hnorm.
        change (2 ^ 5) with 32 in *. unfold seconds_limit. nia.
      - subst k. change (2 ^ (- (-6))) with 64. unfold seconds_limit, limit_mantissa in *.
        lia. }
    rewrite (timedelta_float_unfold _ _ _ n micro Hmodf Hint Hmicro).
    cbv zeta. rewrite Hover by lia. reflexivity.
Qed.

(** The exception of [srt_timestamp], input by input. *)
Lemma srt_timestamp_error v w e :
  value_typed v = true -> seconds_error v = Some e ->
  srt_timestamp v w = (Raise e, w).
Proof.
  intros Hty Herr. destruct v as [|z|f|s]; cbn [seconds_error] in Herr.
  - injection Herr as <-. reflexivity.
  - destruct (Z.ltb_spec z seconds_limit) as [|Hz]; [discriminate Herr|].
    injection Herr as <-.
    unfold srt_timestamp, bind, lift. cbn [lt_zero].
    destruct (Z.ltb_spec z 0); [unfold seconds_limit in Hz; lia|].
    rewrite (timedelta_int_overflow z Hz). reflexivity.
  - cbn [value_typed] in Hty.
    destruct (is_nan f) eqn:Hnan.
    + injection Herr as <-. destruct f; try discriminate Hnan. reflexivity.
    + destruct (f_ltb f (float_of_int seconds_limit)) eqn:Hlim; [discriminate Herr|].
      injection Herr as <-.
      assert (Hneg : f_ltb f f_zero = false).
      { destruct (f_ltb f f_zero) eqn:Eneg; [|reflexivity].
        rewrite (f_ltb_zero_limit f Eneg) in Hlim. discriminate Hlim. }
      unfold srt_timestamp, bind, lift. cbn [lt_zero]. rewrite Hneg.
      assert (Htd : timedelta_of_seconds (VFloat f) = Raise OverflowError).
      { destruct f as [s|s| |s m e'].
        - rewrite float_of_int_limit in Hlim. discriminate Hlim.
        - destruct s; [rewrite float_of_int_limit in Hlim; discriminate Hlim|].
          vm_compute. reflexivity.
        - discriminate Hnan.
        - destruct s; [rewrite float_of_int_limit in Hlim; discriminate Hlim|].
          apply timedelta_float_overflow_error; [assumption|].
          apply f_ltb_limit_false; assumption. }
      rewrite Htd. reflexivity.
  - injection Herr as <-. reflexivity.
Qed.

Lemma seconds_error_none v :
  seconds_error v = None -> value_typed v = true -> ok_seconds v = true.
Proof.
  destruct v as [|z|f|s]; cbn [seconds_error ok_seconds value_typed];
    try discriminate.
  - destruct (z <? seconds_limit); [reflexivity|discriminate].
  - intros H Hfl. rewrite Hfl.
    destruct (is_nan f); [discriminate H|].
    destruct (f_ltb f (float_of_int seconds_limit)); [reflexivity|discriminate H].
Qed.






(** X1: the outcome of [srt_timestamp] on every value a segment can hold:
    [TypeError] on [None] and on a [str], [ValueError] on NaN,
    [OverflowError] from 86400000000000 seconds on ([+inf] included), and a
    timestamp otherwise; in no case an effect on the world. *)
Theorem srt_timestamp_exceptions (v : pyval) (w : world) :
  value_typed v = true ->
  match seconds_error v with
  | Some e => srt_timestamp v w = (Raise e, w)
  | None => exists s, srt_timestamp v w = (Ok s, w) /\ timestamp_form s
  end.
Proof.
  intros Hty. destruct (seconds_error v) as [e|] eqn:Eerr.
  - apply srt_timestamp_error; assumption.
  - destruct (srt_timestamp_accepts v (seconds_error_none v Eerr Hty)) as (s & Hs & Hf).
    exists s. split; [apply Hs|exact Hf].
Qed.

Lemma srt_timestamp_exceptions_witness :
  srt_timestamp (VInt seconds_limit) empty_world = (Raise OverflowError, empty_world).
Proof.
  exact (srt_timestamp_exceptions (VInt seconds_limit) empty_world eq_refl).
Defined.

(** ** [write_srt]: failures, and what is left of the file *)

Lemma srt_text_app cells1 : forall cells2 i,
  srt_text i (cells1 ++ cells2)
  = srt_text i cells1 ++ srt_text (i + Z.of_nat (length cells1)) cells2.
Proof.
  induction cells1 as [|[[a b] t] cells1 IH]; intros cells2 i.
  - simpl. rewrite Z.add_0_r. reflexivity.
  - cbn [app srt_text length]. rewrite IH, <- app_assoc.
    replace (i + 1 + Z.of_nat (length cells1)) with (i + Z.of_nat (S (length cells1)))
      by lia.
    reflexivity.
Qed.

(** The loop, split in two: the numbering goes on where the first part
    stopped. *)
Lemma write_blocks_app f segs1 : forall segs2 i w,
  write_blocks f i (segs1 ++ segs2) w
  = (write_blocks f i segs1 ;;
     write_blocks f (i + Z.of_nat (length segs1)) segs2) w.
Proof.
  induction segs1 as [|seg segs1 IH]; intros segs2 i w.
  - simpl. unfold bind, ret. rewrite Z.add_0_r. reflexivity.
  - cbn [app write_blocks length]. unfold bind.
    destruct (write_block f i seg w) as [[[]|e] w1]; [|reflexivity].
    rewrite IH. unfold bind.
    replace (i + 1 + Z.of_nat (length segs1)) with (i + Z.of_nat (S (length segs1)))
      by lia.
    reflexivity.
Qed.


Lemma write_block_outcome f i seg :
  exists r t, forall w, write_block f i seg w = (r, written f t w).
Proof.
  unfold write_block, bind, lift.
  destruct (srt_timestamp_pure (seg_get seg "start" (VFloat f_zero))) as [ra Ha].
  destruct (srt_timestamp_pure (seg_get seg "end" (VFloat f_zero))) as [rb Hb].
  destruct ra as [a|e].
  2: { exists (Raise e), []. intros w. rewrite Ha, written_nil. reflexivity. }
  destruct rb as [b|e].
  2: { exists (Raise e), []. intros w. rewrite Ha, Hb, written_nil. reflexivity. }
  destruct (val_strip (seg_get seg "text" (VStr []))) as [t|e].
  - eexists (Ok tt), _. intros w. rewrite Ha, Hb. reflexivity.
  - exists (Raise e), []. intros w. rewrite Ha, Hb, written_nil. reflexivity.
Qed.

(** Whatever the segments, the loop only appends to its file. *)
Lemma write_blocks_outcome f segs : forall i,
  exists r t, forall w, write_blocks f i segs w = (r, written f t w).
Proof.
  induction segs as [|seg segs IH]; intros i.
  - exists (Ok tt), []. intros w. rewrite written_nil. reflexivity.
  - destruct (write_block_outcome f i seg) as (r1 & t1 & H1).
    destruct (IH (i + 1)) as (r2 & t2 & H2).
    destruct r1 as [[]|e].
    + exists r2, (t1 ++ t2). intros w. cbn [write_blocks]. unfold bind.
      rewrite H1, H2, written_written. reflexivity.
    + exists (Raise e), t1. intros w. cbn [write_blocks]. unfold bind.
      rewrite H1. reflexivity.
Qed.

Lemma written_opened path enc t fs evs :
  written path t {| files := <[path := {| tf_encoding := enc; tf_text := [] |}]> fs;
                    events := evs |}
  = {| files := <[path := {| tf_encoding := enc; tf_text := t |}]> fs;
       events := evs |}.
Proof. unfold written. simpl. rewrite alter_insert_eq. reflexivity. Qed.

(** [write_srt], whatever the segments: either the destination cannot be
    opened, or it holds, whatever it held, the text written up to the end
    or up to the first exception. *)
Lemma write_srt_outcome E segs path :
  exists r t, forall w,
    write_srt E segs path w
    = if can_open_w E path
      then (r, {| files := <[path := {| tf_encoding := lit "utf-8";
                                        tf_text := t |}]> (files w);
                  events := events w |})
      else (Raise OSError, w).
Proof.
  destruct (write_blocks_outcome path segs 1) as (r & t & H).
  exists r, t. intros w. unfold write_srt, bind, open_w.
  destruct (can_open_w E path); [|reflexivity].
  rewrite H, written_opened. reflexivity.
Qed.






(** X4: [write_srt] touches nothing but its destination: every other file
    is as it was, and nothing is printed or asked of the engine. *)
Theorem write_srt_frame (E : env) (segs : list segment) (path : pystr) (w : world) :
  events (snd (write_srt E segs path w)) = events w /\
  forall p, p <> path ->
            files (snd (write_srt E segs path w)) !! p = files w !! p.
Proof.
  destruct (write_srt_outcome E segs path) as (r & t & H). rewrite H.
  destruct (can_open_w E path); cbn [snd files events].
  - split; [reflexivity|]. intros p Hp. apply lookup_insert_ne. congruence.
  - split; reflexivity.
Qed.

(** X5: what the destination held before does not matter: the file is
    opened with mode [w], so the result of [write_srt] and the content it
    leaves are the same in every world. *)
Theorem write_srt_discards_old_content (E : env) (segs : list segment)
        (path : pystr) (w w' : world) :
  can_open_w E path = true ->
  fst (write_srt E segs path w) = fst (write_srt E segs path w') /\
  files (snd (write_srt E segs path w)) !! path
  = files (snd (write_srt E segs path w')) !! path /\
  write_srt E segs path (snd (write_srt E segs path w)) = write_srt E segs path w.
Proof.
  intros Hopen.
  destruct (write_srt_outcome E segs path) as (r & t & H).
  rewrite !H, Hopen. cbn [fst snd files events].
  rewrite !lookup_insert_eq, insert_insert_eq. repeat split.
Qed.

Lemma write_srt_discards_old_content_witness :
  fst (write_srt env_sample sample_segments (lit "out.srt") empty_world)
  = fst (write_srt env_sample sample_segments (lit "out.srt")
           (snd (write_srt env_sample [text_only_segment] (lit "out.srt") empty_world)))
  /\
  files (snd (write_srt env_sample sample_segments (lit "out.srt") empty_world))
    !! lit "out.srt"
  = files (snd (write_srt env_sample sample_segments (lit "out.srt")
                  (snd (write_srt env_sample [text_only_segment] (lit "out.srt")
                          empty_world))))
      !! lit "out.srt"
  /\
  write_srt env_sample sample_segments (lit "out.srt")
    (snd (write_srt env_sample sample_segments (lit "out.srt") empty_world))
  = write_srt env_sample sample_segments (lit "out.srt") empty_world.
Proof.
  apply (write_srt_discards_old_content env_sample sample_segments (lit "out.srt")
           empty_world
           (snd (write_srt env_sample [text_only_segment] (lit "out.srt") empty_world))).
  reflexivity.
Defined.

(** X6: segments appended to a list do not change what is written for the
    list: [write_srt] on [segs1 ++ segs2] is [write_srt] on [segs1], then
    the loop on [segs2] with the numbering carried on. *)
Theorem write_srt_app (E : env) (segs1 segs2 : list segment) (path : pystr)
        (w : world) :
  write_srt E (segs1 ++ segs2) path w
  = (f <- open_w E path (lit "utf-8") ;;
     write_blocks f 1 segs1 ;;
     write_blocks f (1 + Z.of_nat (length segs1)) segs2) w.
Proof.
  unfold write_srt, bind.
  destruct (open_w E path (lit "utf-8") w) as [[f|e] w1]; [|reflexivity].
  rewrite write_blocks_app. reflexivity.
Qed.

(** ** [main]: the runs that reach [write_srt], and those that do not *)

(** The five ways through [main]. *)
Lemma main_outcome E a w :
  (isfile E (a_input a) = false /\
   main E a w
   = (Raise (SystemExit 1),
      logged [EPrint Stderr (lit "Input not found: " ++ a_input a)] w)) \/
  (exists e,
     load_model E (a_model a) (a_device a) = Raise e /\
     main E a w
     = (Raise e,
        logged [EPrint Stdout (lit "Loading Whisper model '" ++ a_model a ++ lit "'...");
                ELoadModel (a_model a) (a_device a)] w)) \/
  (exists m e,
     load_model E (a_model a) (a_device a) = Ok m /\
     transcribe E m (a_input a) (make_kwargs a) = Raise e /\
     main E a w = (Raise e, logged (call_events a m) w)) \/
  (exists m r,
     load_model E (a_model a) (a_device a) = Ok m /\
     transcribe E m (a_input a) (make_kwargs a) = Ok r /\
     main E a w
     = (Raise (SystemExit 2),
        logged (call_events a m
                ++ [EPrint Stderr (lit "No segments returned. Nothing to write.")]) w)) \/
  (exists m r seg segs,
     load_model E (a_model a) (a_device a) = Ok m /\
     transcribe E m (a_input a) (make_kwargs a) = Ok r /\
     tr_segments r = Some (seg :: segs) /\
     main E a w =
       (write_srt E (seg :: segs) (output_path a r) ;;
        print Stdout (lit "Done. Wrote subtitles to: " ++ output_path a r))
         (logged (call_events a m) w)).
Proof.
  destruct (isfile E (a_input a)) eqn:Hfile.
  2: { left. split; [reflexivity|]. apply main_not_found; assumption. }
  destruct (load_model E (a_model a) (a_device a)) as [m|e] eqn:Hload.
  2: { right; left. exists e. split; [reflexivity|].
       apply main_load_fails; assumption. }
  destruct (transcribe E m (a_input a) (make_kwargs a)) as [r|e] eqn:Htr.
  2: { right; right; left. exists m, e. split; [reflexivity|]. split; [assumption|].
       apply main_transcribe_fails; assumption. }
  destruct (default [] (tr_segments r)) as [|seg segs] eqn:Hseg.
  - right; right; right; left. exists m, r. split; [reflexivity|].
    split; [assumption|]. apply (main_nothing_to_write E a w m r); assumption.
  - right; right; right; right. exists m, r, seg, segs.
    assert (Hseg' : tr_segments r = Some (seg :: segs)).
    { destruct (tr_segments r); [simpl in Hseg; congruence|discriminate Hseg]. }
    split; [reflexivity|]. split; [assumption|]. split; [assumption|].
    apply main_reaches_write; assumption.
Qed.

Lemma done_message_not_loading a p :
  EPrint Stdout (lit "Loading Whisper model '" ++ a_model a ++ lit "'...")
  <> done_message p.
Proof. unfold done_message. intros H. injection H as H. discriminate H. Qed.

Lemma done_message_not_transcribing a p :
  EPrint Stdout (lit "Transcribing '" ++ a_input a ++ lit "'...") <> done_message p.
Proof. unfold done_message. intros H. injection H as H. discriminate H. Qed.

(** No event of [main] before [write_srt] is the last message. *)
Lemma done_message_not_before a m p :
  done_message p ∉ call_events a m.
Proof.
  unfold call_events. intros H.
  apply elem_of_cons in H as [H|H];
    [symmetry in H; exact (done_message_not_loading a p H)|].
  apply elem_of_cons in H as [H|H]; [discriminate H|].
  apply elem_of_cons in H as [H|H];
    [symmetry in H; exact (done_message_not_transcribing a p H)|].
  apply elem_of_cons in H as [H|H]; [discriminate H|].
  apply elem_of_nil in H. exact H.
Qed.

Section MainRuns.
Variable E : env.

(** X7: an [-o] path that is not empty is the path [main] writes to and
    names in its last message, whatever the input path and the language;
    an empty one counts as not given. *)
Theorem main_output_option (a : args) (w : world) (m : whisper_model)
        (r : transcription) (seg : segment) (segs : list segment) :
  isfile E (a_input a) = true ->
  load_model E (a_model a) (a_device a) = Ok m ->
  transcribe E m (a_input a) (make_kwargs a) = Ok r ->
  tr_segments r = Some (seg :: segs) ->
  main E a w =
    (write_srt E (seg :: segs) (output_path a r) ;;
     print Stdout (lit "Done. Wrote subtitles to: " ++ output_path a r))
      (logged (call_events a m) w) /\
  (forall p, a_output a = Some p -> p <> [] -> output_path a r = p) /\
  (a_output a = Some [] -> output_path a r = output_path (without_output a) r).
Proof.
  intros Hfile Hload Htr Hseg.
  split; [apply main_reaches_write; assumption|]. split.
  - intros p Hp Hne. unfold output_path. rewrite Hp.
    unfold py_or. rewrite (truthy_Some_ne p Hne). reflexivity.
  - intros Hp. unfold output_path, without_output. cbn [a_output a_input
      a_translate a_language]. rewrite Hp. reflexivity.
Qed.


(** X9: [main] catches nothing: an exception of [whisper.load_model] or
    of [model.transcribe] is the outcome of [main]; the engine is not
    called after a failed load, nothing is printed past the progress
    messages, and no file is written. *)
Theorem main_engine_failure (a : args) (w : world) (e : exn) :
  isfile E (a_input a) = true ->
  (load_model E (a_model a) (a_device a) = Raise e ->
   main E a w
   = (Raise e,
      {| files := files w;
         events := events w
           ++ [EPrint Stdout (lit "Loading Whisper model '" ++ a_model a ++ lit "'...");
               ELoadModel (a_model a) (a_device a)] |})) /\
  (forall m, load_model E (a_model a) (a_device a) = Ok m ->
             transcribe E m (a_input a) (make_kwargs a) = Raise e ->
             main E a w
             = (Raise e, {| files := files w;
                            events := events w ++ call_events a m |})).
Proof.
  intros Hfile. split.
  - intros Hload. apply main_load_fails; assumption.
  - intros m Hload Htr. apply main_transcribe_fails; assumption.
Qed.

(** X10: when the output path cannot be opened, [main] ends with the
    [OSError] of [open], after the engine has done all its work: the last
    message is not printed, no file is written, and the exit status is 1. *)
Theorem main_output_unwritable (a : args) (w : world) (m : whisper_model)
        (r : transcription) (seg : segment) (segs : list segment) :
  isfile E (a_input a) = true ->
  load_model E (a_model a) (a_device a) = Ok m ->
  transcribe E m (a_input a) (make_kwargs a) = Ok r ->
  tr_segments r = Some (seg :: segs) ->
  can_open_w E (output_path a r) = false ->
  main E a w
  = (Raise OSError, {| files := files w; events := events w ++ call_events a m |}) /\
  exit_status (fst (main E a w)) = 1.
Proof.
  intros Hfile Hload Htr Hseg Hopen.
  assert (Hmain : main E a w
    = (Raise OSError, {| files := files w; events := events w ++ call_events a m |})).
  { rewrite (main_reaches_write E a w m r seg segs Hfile Hload Htr Hseg).
    unfold bind, write_srt, open_w. rewrite Hopen. reflexivity. }
  split; [exact Hmain|]. rewrite Hmain. reflexivity.
Qed.

(** X11: the last message tells the truth. In every run, the message
    [Done. Wrote subtitles to: p] is printed only when [main] returns
    normally and only for a [p] that is then a UTF-8 text file; and a run
    that returns normally ends with that message. *)
Theorem main_done_message (a : args) (w : world) :
  exists evs,
    events (snd (main E a w)) = events w ++ evs /\
    (forall p, done_message p ∈ evs ->
       fst (main E a w) = Ok tt /\
       exists t, files (snd (main E a w)) !! p
                 = Some {| tf_encoding := lit "utf-8"; tf_text := t |}) /\
    (fst (main E a w) = Ok tt -> exists p, last evs = Some (done_message p)).
Proof.
  destruct (main_outcome E a w)
    as [(_ & H)|[(e & _ & H)|[(m & e & _ & _ & H)|[(m & r & _ & _ & H)
        |(m & r & seg & segs & _ & _ & _ & H)]]]]; rewrite H; clear H.
  - eexists. split; [reflexivity|]. split; [|discriminate].
    intros p Hp. apply elem_of_cons in Hp as [Hp|Hp]; [discriminate Hp|].
    apply elem_of_nil in Hp. destruct Hp.
  - eexists. split; [reflexivity|]. split; [|discriminate].
    intros p Hp.
    apply elem_of_cons in Hp as [Hp|Hp];
      [symmetry in Hp; destruct (done_message_not_loading a p Hp)|].
    apply elem_of_cons in Hp as [Hp|Hp]; [discriminate Hp|].
    apply elem_of_nil in Hp. destruct Hp.
  - eexists. split; [reflexivity|]. split; [|discriminate].
    intros p Hp. destruct (done_message_not_before a m p Hp).
  - eexists. split; [reflexivity|]. split; [|discriminate].
    intros p Hp. apply elem_of_app in Hp as [Hp|Hp];
      [destruct (done_message_not_before a m p Hp)|].
    apply elem_of_cons in Hp as [Hp|Hp]; [discriminate Hp|].
    apply elem_of_nil in Hp. destruct Hp.
  - destruct (write_srt_outcome E (seg :: segs) (output_path a r)) as (res & t & H).
    unfold bind. rewrite H. destruct (can_open_w E (output_path a r)).
    + destruct res as [[]|e].
      * unfold print, emit, logged. cbn [fst snd files events].
        exists (call_events a m ++ [done_message (output_path a r)]).
        split; [rewrite <- app_assoc; reflexivity|]. split.
        -- intros p Hp. split; [reflexivity|].
           apply elem_of_app in Hp as [Hp|Hp];
             [destruct (done_message_not_before a m p Hp)|].
           apply elem_of_cons in Hp as [Hp|Hp];
             [|apply elem_of_nil in Hp; destruct Hp].
           unfold done_message in Hp. injection Hp as Hp.
           subst p.
           exists t. apply lookup_insert_eq.
        -- intros _. exists (output_path a r). apply last_snoc.
      * cbn [fst snd files events logged].
        exists (call_events a m). split; [reflexivity|]. split; [|discriminate].
        intros p Hp. destruct (done_message_not_before a m p Hp).
    + cbn [fst snd files events logged].
      exists (call_events a m). split; [reflexivity|]. split; [|discriminate].
      intros p Hp. destruct (done_message_not_before a m p Hp).
Qed.

(** X12: [main] writes to one place at most: a file that differs after
    the run is the output path of a transcription the engine returned with
    at least one segment. *)
Theorem main_writes_one_file (a : args) (w : world) (p : pystr) :
  files (snd (main E a w)) !! p <> files w !! p ->
  exists m r seg segs,
    load_model E (a_model a) (a_device a) = Ok m /\
    transcribe E m (a_input a) (make_kwargs a) = Ok r /\
    tr_segments r = Some (seg :: segs) /\
    p = output_path a r /\ can_open_w E p = true.
Proof.
  destruct (main_outcome E a w)
    as [(_ & H)|[(e & _ & H)|[(m & e & _ & _ & H)|[(m & r & _ & _ & H)
        |(m & r & seg & segs & Hload & Htr & Hseg & H)]]]]; rewrite H; clear H;
    try (cbn [snd logged files]; congruence).
  destruct (write_srt_outcome E (seg :: segs) (output_path a r)) as (res & t & H).
  unfold bind. rewrite H.
  destruct (can_open_w E (output_path a r)) eqn:Hopen.
  - intros Hp. exists m, r, seg, segs.
    destruct (decide (p = output_path a r)) as [->|Hne]; [auto|].
    exfalso. apply Hp.
    destruct res as [[]|e]; cbn [snd logged files print emit];
      rewrite lookup_insert_ne by congruence; reflexivity.
  - cbn [snd logged files]. congruence.
Qed.
End MainRuns.

Lemma main_output_option_witness :
  main env_sample args_output empty_world =
    (write_srt env_sample sample_segments
       (output_path args_output sample_transcription) ;;
     print Stdout (lit "Done. Wrote subtitles to: "
                   ++ output_path args_output sample_transcription))
      (logged (call_events args_output
                 {| wm_name := lit "base"; wm_device := None |}) empty_world) /\
  (forall p, a_output args_output = Some p -> p <> [] ->
             output_path args_output sample_transcription = p) /\
  (a_output args_output = Some [] ->
   output_path args_output sample_transcription
   = output_path (without_output args_output) sample_transcription).
Proof.
  apply (main_output_option env_sample args_output empty_world
           {| wm_name := lit "base"; wm_device := None |} sample_transcription
           (hd ∅ sample_segments) (tl sample_segments));
    reflexivity.
Defined.


Lemma main_engine_failure_witness :
  (load_model env_no_model (a_model args_sample) (a_device args_sample)
   = Raise OSError ->
   main env_no_model args_sample empty_world
   = (Raise OSError,
      {| files := files empty_world;
         events := events empty_world
           ++ [EPrint Stdout (lit "Loading Whisper model '" ++ a_model args_sample
                              ++ lit "'...");
               ELoadModel (a_model args_sample) (a_device args_sample)] |})) /\
  (forall m, load_model env_no_model (a_model args_sample) (a_device args_sample)
             = Ok m ->
             transcribe env_no_model m (a_input args_sample) (make_kwargs args_sample)
             = Raise OSError ->
             main env_no_model args_sample empty_world
             = (Raise OSError,
                {| files := files empty_world;
                   events := events empty_world ++ call_events args_sample m |})).
Proof.
  apply (main_engine_failure env_no_model args_sample empty_world OSError).
  reflexivity.
Defined.

Lemma main_output_unwritable_witness :
  main env_read_only args_sample empty_world
  = (Raise OSError,
     {| files := files empty_world;
        events := events empty_world
                  ++ call_events args_sample
                       {| wm_name := lit "base"; wm_device := None |} |}) /\
  exit_status (fst (main env_read_only args_sample empty_world)) = 1.
Proof.
  apply (main_output_unwritable env_read_only args_sample empty_world
           {| wm_name := lit "base"; wm_device := None |} sample_transcription
           (hd ∅ sample_segments) (tl sample_segments));
    reflexivity.
Defined.

Lemma main_writes_one_file_witness :
  exists m r seg segs,
    load_model env_sample (a_model args_sample) (a_device args_sample) = Ok m /\
    transcribe env_sample m (a_input args_sample) (make_kwargs args_sample) = Ok r /\
    tr_segments r = Some (seg :: segs) /\
    lit "talk.fr.srt" = output_path args_sample r /\
    can_open_w env_sample (lit "talk.fr.srt") = true.
Proof.
  apply (main_writes_one_file env_sample args_sample empty_world (lit "talk.fr.srt")).
  vm_compute. discriminate.
Defined.

(** ** Whole numbers in binary64 *)

Lemma shr_1_exact m : 0 <= m ->
  shr_1 {| shr_m := 2 * m; shr_r := false; shr_s := false |}
  = {| shr_m := m; shr_r := false; shr_s := false |}.
Proof. intros Hm. destruct m as [|p|p]; [reflexivity|reflexivity|lia]. Qed.

(** Shifting out zeros leaves the position exact. *)
Lemma shr_iter_exact p : forall m, 0 <= m ->
  SpecFloat.iter_pos shr_1 p
    {| shr_m := 2 ^ Zpos p * m; shr_r := false; shr_s := false |}
  = {| shr_m := m; shr_r := false; shr_s := false |}.
Proof.
  induction p as [p IH|p IH|]; intros m Hm; cbn [SpecFloat.iter_pos].
  - replace (2 ^ Zpos p~1 * m) with (2 * (2 ^ Zpos p * (2 ^ Zpos p * m))).
    + assert (0 <= 2 ^ Zpos p * m) by (apply Z.mul_nonneg_nonneg; lia).
      rewrite shr_1_exact by (apply Z.mul_nonneg_nonneg; lia).
      rewrite IH by assumption. apply IH; assumption.
    + rewrite (Pos2Z.inj_xI p).
      replace (2 * Zpos p + 1) with (1 + Zpos p + Zpos p) by lia.
      rewrite !Z.pow_add_r by lia. change (2 ^ 1) with 2. ring.
  - replace (2 ^ Zpos p~0 * m) with (2 ^ Zpos p * (2 ^ Zpos p * m)).
    + assert (0 <= 2 ^ Zpos p * m) by (apply Z.mul_nonneg_nonneg; lia).
      rewrite IH by assumption. apply IH; assumption.
    + rewrite (Pos2Z.inj_xO p).
      replace (2 * Zpos p) with (Zpos p + Zpos p) by lia.
      rewrite !Z.pow_add_r by lia. ring.
  - change (2 ^ 1) with 2. apply shr_1_exact; assumption.
Qed.

Lemma Zdigits2_mul_pow2 m k :
  0 < m -> 0 <= k -> Zdigits2 (2 ^ k * m) = Zdigits2 m + k.
Proof.
  intros Hm Hk. destruct m as [|p|p]; try lia.
  assert (Hp : 0 < 2 ^ k) by (apply Z.pow_pos_nonneg; lia).
  assert (Hpos : 0 < 2 ^ k * Zpos p) by (apply Z.mul_pos_pos; lia).
  destruct (2 ^ k * Zpos p) as [|q|q] eqn:E; try lia.
  cbn [Zdigits2]. apply Zdigits2_unique. rewrite <- E.
  pose proof (pos_lt_pow_digits p) as H1. pose proof (pow_digits_le p) as H2.
  set (d := Zpos (digits2_pos p)) in *.
  assert (0 < d) by (subst d; lia).
  replace (d + k - 1) with (k + (d - 1)) by lia.
  replace (d + k) with (k + d) by lia.
  rewrite !Z.pow_add_r by lia.
  split; [apply Z.mul_le_mono_nonneg_l|apply Z.mul_lt_mono_pos_l]; lia.
Qed.

Lemma shr_fexp_exact m ex k :
  0 < m -> k = Z.max 0 (fexp prec emax (Zdigits2 m + k + ex) - ex) ->
  shr_fexp prec emax (2 ^ k * m) ex loc_Exact
  = ({| shr_m := m; shr_r := false; shr_s := false |}, ex + k).
Proof.
  intros Hm Hk. assert (Hk0 : 0 <= k) by lia.
  unfold shr_fexp. rewrite (Zdigits2_mul_pow2 m k Hm Hk0).
  cbn [shr_record_of_loc]. unfold shr.
  destruct (fexp prec emax (Zdigits2 m + k + ex) - ex) as [|p|p] eqn:En.
  - replace k with 0 by lia. rewrite Z.add_0_r. f_equal. f_equal. simpl. lia.
  - assert (Ek : k = Zpos p) by lia. rewrite Ek.
    rewrite shr_iter_exact by lia. reflexivity.
  - replace k with 0 by lia. rewrite Z.add_0_r. f_equal. f_equal. simpl. lia.
Qed.

(** Rounding a number that fits changes nothing: it is only brought to
    canonical form. *)
Lemma binary_round_aux_exact s m ex k :
  0 < m -> k = Z.max 0 (fexp prec emax (Zdigits2 m + k + ex) - ex) ->
  ex + k <= emax - prec ->
  binary_round_aux prec emax s (2 ^ k * m) ex loc_Exact
  = S754_finite s (Z.to_pos m) (ex + k).
Proof.
  intros Hm Hk He. unfold binary_round_aux.
  rewrite (shr_fexp_exact m ex k Hm Hk).
  cbn [shr_m loc_of_shr_record round_nearest_even].
  assert (H0 : 0 = Z.max 0 (fexp prec emax (Zdigits2 m + 0 + (ex + k)) - (ex + k))).
  { replace (Zdigits2 m + 0 + (ex + k)) with (Zdigits2 m + k + ex) by lia. lia. }
  pose proof (shr_fexp_exact m (ex + k) 0 Hm H0) as H2.
  change (2 ^ 0 * m) with (1 * m) in H2. rewrite Z.mul_1_l, Z.add_0_r in H2.
  rewrite H2. cbn [shr_m].
  destruct m as [|p|p]; try lia.
  destruct (Z.leb_spec (ex + k) (emax - prec)); [reflexivity|lia].
Qed.

Lemma Zdigits2_int N : 0 < N < 2 ^ 53 -> 1 <= Zdigits2 N <= 53.
Proof.
  intros HN. split.
  - destruct N as [|p|p]; try lia. cbn [Zdigits2]. lia.
  - apply Zdigits2_le_pow; lia.
Qed.

(** A whole number below [2^53], however it is scaled, rounds to itself. *)
Lemma binary_round_aux_int s mx ex N :
  0 < mx -> 0 < N < 2 ^ 53 ->
  mx * 2 ^ Z.max 0 ex = N * 2 ^ Z.max 0 (- ex) ->
  exists m e,
    binary_round_aux prec emax s mx ex loc_Exact = S754_finite s m e /\
    Zpos m * 2 ^ Z.max 0 e = N * 2 ^ Z.max 0 (- e).
Proof.
  intros Hmx HN Hv.
  pose proof (Zdigits2_int N HN) as Hd.
  assert (Hf : fexp prec emax (Zdigits2 N) = Zdigits2 N - 53)
    by (unfold fexp, emin, prec, emax; lia).
  destruct (Z_le_gt_dec 0 ex) as [Hex|Hex].
  - rewrite Z.max_r, Z.max_l in Hv by lia. change (2 ^ 0) with 1 in Hv.
    assert (Hdig : Zdigits2 N = Zdigits2 mx + ex).
    { replace N with (2 ^ ex * mx) by lia. apply Zdigits2_mul_pow2; lia. }
    assert (Hex53 : ex < 53).
    { destruct (Z_lt_le_dec ex 53); [assumption|].
      assert (2 ^ 53 <= 2 ^ ex) by (apply Z.pow_le_mono_r; lia).
      assert (2 ^ ex * 1 <= 2 ^ ex * mx)
        by (apply Z.mul_le_mono_nonneg_l; [apply Z.pow_nonneg|]; lia).
      lia. }
    pose proof (binary_round_aux_exact s mx ex 0 Hmx) as H.
    change (2 ^ 0 * mx) with (1 * mx) in H. rewrite Z.mul_1_l, !Z.add_0_r in H.
    rewrite <- Hdig, Hf in H.
    rewrite H by (unfold emax, prec; lia).
    exists (Z.to_pos mx), ex. split; [reflexivity|].
    rewrite Z2Pos.id by lia. rewrite Z.max_r, Z.max_l by lia.
    change (2 ^ 0) with 1. lia.
  - rewrite Z.max_l, Z.max_r in Hv by lia. change (2 ^ 0) with 1 in Hv.
    rewrite Z.mul_1_r in Hv.
    set (k := Z.max 0 (Zdigits2 N - 53 - ex)).
    set (m := N * 2 ^ (- ex - k)).
    assert (Hk : 0 <= k <= - ex) by (subst k; lia).
    assert (Hp : 0 < 2 ^ (- ex - k)) by (apply Z.pow_pos_nonneg; lia).
    assert (Hm : 0 < m) by (subst m; apply Z.mul_pos_pos; lia).
    assert (Hmx' : mx = 2 ^ k * m).
    { subst m. rewrite Hv. replace (- ex) with (k + (- ex - k)) at 1 by lia.
      rewrite Z.pow_add_r by lia. ring. }
    assert (Hdm : Zdigits2 m = Zdigits2 N + (- ex - k)).
    { subst m. rewrite Z.mul_comm. apply Zdigits2_mul_pow2; lia. }
    pose proof (binary_round_aux_exact s m ex k Hm) as H.
    rewrite Hdm in H.
    replace (Zdigits2 N + (- ex - k) + k + ex) with (Zdigits2 N) in H by lia.
    rewrite Hf, <- Hmx' in H.
    rewrite H by (unfold emax, prec; subst k; lia).
    exists (Z.to_pos m), (ex + k). split; [reflexivity|].
    rewrite Z2Pos.id by lia. rewrite Z.max_l, Z.max_r by lia.
    change (2 ^ 0) with 1. subst m.
    replace (- (ex + k)) with (- ex - k) by lia. lia.
Qed.

Lemma float_is_int_finite m e n :
  float_is_int n (S754_finite false m e)
  <-> Zpos m * 2 ^ Z.max 0 e = n * 2 ^ Z.max 0 (- e).
Proof. reflexivity. Qed.

(** [round] of a whole float is that number. *)
Lemma float_round_int n x : float_is_int n x -> float_round x = Ok n.
Proof.
  destruct x as [[]|s| |[] m e]; cbn [float_is_int]; try tauto.
  - intros ->. reflexivity.
  - intros Hv. unfold float_round. destruct (Z.leb_spec 0 e) as [He|He].
    + rewrite Z.max_r, Z.max_l in Hv by lia. change (2 ^ 0) with 1 in Hv.
      cbn [cond_Zopp]. rewrite Z.shiftl_mul_pow2 by lia. f_equal. lia.
    + rewrite Z.max_l, Z.max_r in Hv by lia. change (2 ^ 0) with 1 in Hv.
      rewrite Z.mul_1_r in Hv.
      assert (Hp : 0 < 2 ^ (- e)) by (apply Z.pow_pos_nonneg; lia).
      assert (Hh : 0 < 2 ^ (- e - 1)) by (apply Z.pow_pos_nonneg; lia).
      rewrite Z.shiftr_div_pow2, Z.land_ones, Z.shiftl_mul_pow2 by lia.
      rewrite Hv, Z.div_mul, Z.mod_mul, Z.mul_1_l by lia.
      destruct (Z.ltb_spec (2 ^ (- e - 1)) 0); [lia|].
      destruct (Z.eqb_spec 0 (2 ^ (- e - 1))); [lia|]. reflexivity.
Qed.

(** [int] of a whole float is that number. *)
Lemma int_of_float_int n x : float_is_int n x -> int_of_float x = Ok n.
Proof.
  destruct x as [[]|s| |[] m e]; cbn [float_is_int]; try tauto.
  - intros ->. reflexivity.
  - intros Hv. unfold int_of_float. cbn [cond_Zopp].
    destruct (Z.leb_spec 0 e) as [He|He].
    + rewrite Z.max_r, Z.max_l in Hv by lia. change (2 ^ 0) with 1 in Hv.
      rewrite Z.shiftl_mul_pow2 by lia. f_equal. lia.
    + rewrite Z.max_l, Z.max_r in Hv by lia. change (2 ^ 0) with 1 in Hv.
      rewrite Z.mul_1_r in Hv.
      assert (Hp : 0 < 2 ^ (- e)) by (apply Z.pow_pos_nonneg; lia).
      rewrite Z.shiftr_div_pow2 by lia. rewrite Hv, Z.div_mul by lia. reflexivity.
Qed.

(** [n * 10^6 / 10^6] on ints is the float of [n]. *)
Lemma int_truediv_whole z :
  0 < z < 2 ^ 53 ->
  exists x, int_truediv (z * 1000000) 1000000 = Ok x /\ float_is_int z x.
Proof.
  intros Hz. unfold int_truediv.
  destruct (Z.eqb_spec 1000000 0) as [|_]; [lia|].
  destruct (Z.eqb_spec (z * 1000000) 0) as [|_]; [lia|].
  replace (xorb (z * 1000000 <? 0) (1000000 <? 0)) with false
    by (destruct (Z.ltb_spec (z * 1000000) 0); [lia|reflexivity]).
  rewrite (Z.abs_eq (z * 1000000)) by lia. change (Z.abs 1000000) with 1000000.
  unfold SFdiv_core_binary.
  change (Zdigits2 1000000) with 20.
  set (e' := Z.min (fexp prec emax (Zdigits2 (z * 1000000) + 0 - (20 + 0))) (0 - 0)).
  set (m' := match 0 - 0 - e' with
             | Zpos _ => Z.shiftl (z * 1000000) (0 - 0 - e')
             | 0 => z * 1000000
             | Zneg _ => 0
             end).
  assert (He' : e' <= 0) by (subst e'; lia).
  assert (Hp : 0 < 2 ^ (- e')) by (apply Z.pow_pos_nonneg; lia).
  assert (Hm' : m' = z * 2 ^ (- e') * 1000000).
  { subst m'. destruct (0 - 0 - e') as [|p|p] eqn:E.
    - replace (- e') with 0 by lia. simpl. lia.
    - rewrite Z.shiftl_mul_pow2 by lia. replace (- e') with (Zpos p) by lia. ring.
    - lia. }
  assert (Hq : m' / 1000000 = z * 2 ^ (- e')) by (rewrite Hm'; apply Z.div_mul; lia).
  assert (Hr : m' mod 1000000 = 0) by (rewrite Hm'; apply Z.mod_mul; lia).
  unfold Z.div in Hq. unfold Z.modulo in Hr.
  destruct (Z.div_eucl m' 1000000) as [q r]. subst q r.
  change (new_location 1000000 0) with loc_Exact.
  destruct (binary_round_aux_int false (z * 2 ^ (- e')) e' z) as (m & e & Hm & Hv).
  - apply Z.mul_pos_pos; lia.
  - assumption.
  - rewrite Z.max_l, Z.max_r by lia. change (2 ^ 0) with 1. lia.
  - rewrite Hm. exists (S754_finite false m e). split; [reflexivity|exact Hv].
Qed.

Lemma pow2_43 : 8796093022208000 = 1000 * 2 ^ 43.
Proof. reflexivity. Qed.

(** A whole number of seconds is a whole number of milliseconds. *)
Lemma mul_1000_int z x :
  0 < z -> 1000 * z < 2 ^ 53 -> float_is_int z x ->
  float_is_int (1000 * z) (mul_1000 x).
Proof.
  intros Hz Hlt Hx.
  destruct x as [[]|s| |[] m e]; cbn [float_is_int] in Hx; try tauto; try lia.
  unfold mul_1000. rewrite float_of_int_1000. unfold f_mul, SFmul. cbn [xorb].
  destruct (binary_round_aux_int false (Zpos (m * 8796093022208000)) (e + -43)
              (1000 * z)) as (m' & e' & Hm' & Hv').
  - lia.
  - lia.
  - rewrite Pos2Z.inj_mul.
    change (Zpos 8796093022208000) with 8796093022208000. rewrite pow2_43.
    destruct (Z_le_gt_dec 43 e) as [He|He].
    + rewrite Z.max_r, Z.max_l in Hx by lia.
      rewrite Z.max_r, Z.max_l by lia. change (2 ^ 0) with 1 in *.
      replace e with (43 + (e + -43)) in Hx at 1 by lia.
      rewrite Z.pow_add_r in Hx by lia.
      rewrite Z.mul_1_r in *. rewrite <- Hx. ring.
    + destruct (Z_le_gt_dec 0 e) as [He0|He0].
      * rewrite Z.max_r, Z.max_l in Hx by lia.
        rewrite Z.max_l, Z.max_r by lia. change (2 ^ 0) with 1 in *.
        rewrite Z.mul_1_r in *. rewrite <- Hx.
        replace 43 with (e + - (e + -43)) at 1 by lia.
        rewrite Z.pow_add_r by lia. ring.
      * rewrite Z.max_l, Z.max_r in Hx by lia.
        rewrite Z.max_l, Z.max_r by lia. change (2 ^ 0) with 1 in *.
        rewrite Z.mul_1_r in *. rewrite Hx.
        replace (- (e + -43)) with (- e + 43) by lia.
        rewrite Z.pow_add_r by lia. ring.
  - rewrite Hm'. exact Hv'.
Qed.

(** An int below [2^53] is a float. *)
Lemma float_of_int_int z :
  0 < z < 2 ^ 53 ->
  exists m e, float_of_int z = S754_finite false m e /\
              float_is_int z (S754_finite false m e).
Proof.
  intros Hz. destruct z as [|p|p]; try lia.
  unfold float_of_int, binary_normalize, binary_round.
  pose proof (shl_align_spec p 0 (fexp prec emax (Zpos (digits2_pos p) + 0))) as Hs.
  destruct (shl_align p 0 (fexp prec emax (Zpos (digits2_pos p) + 0))) as [mz ez].
  destruct Hs as [Hez Hmz].
  assert (Hez0 : ez <= 0) by lia.
  apply (binary_round_aux_int false (Zpos mz) ez (Zpos p)); [lia|assumption|].
  rewrite Z.max_l, Z.max_r by lia. change (2 ^ 0) with 1.
  rewrite Hmz. replace (0 - ez) with (- ez) by lia. lia.
Qed.

(** ** [srt_timestamp] on whole seconds, and read back *)

Lemma timedelta_int_eq z :
  0 <= z < seconds_limit ->
  timedelta_of_seconds (VInt z) = Ok (Timedelta (z / 86400) (z mod 86400) 0).
Proof.
  intros Hz. unfold timedelta_of_seconds. cbn [res_bind]. rewrite usec_zero.
  cbn [res_bind]. change (0 / 1000000) with 0. change (0 mod 1000000) with 0.
  rewrite Z.add_0_r.
  pose proof (Z.mod_pos_bound z 86400 ltac:(lia)) as Hm.
  rewrite (Z.div_small (z mod 86400)) by lia.
  rewrite (Z.mod_small (z mod 86400)) by lia. rewrite Z.add_0_r.
  assert (0 <= z / 86400 <= 999999999).
  { split; [apply Z.div_pos; lia|].
    assert (z / 86400 < 1000000000); [|lia].
    apply Z.div_lt_upper_bound; unfold seconds_limit in Hz; lia. }
  destruct (Z.ltb_spec 999999999 (Z.abs (z / 86400))); [lia|reflexivity].
Qed.

Lemma total_seconds_whole z :
  0 < z < 2 ^ 53 ->
  exists x, total_seconds (Timedelta (z / 86400) (z mod 86400) 0) = Ok x /\
            float_is_int z x.
Proof.
  intros Hz. unfold total_seconds. cbn [td_days td_seconds td_microseconds].
  replace ((z / 86400 * 86400 + z mod 86400) * 1000000 + 0) with (z * 1000000)
    by (pose proof (Z.div_mod z 86400 ltac:(lia)); lia).
  apply int_truediv_whole; assumption.
Qed.

Lemma srt_timestamp_int_clock z w :
  0 <= z -> 1000 * z < 2 ^ 53 ->
  srt_timestamp (VInt z) w = (Ok (clock (1000 * z)), w).
Proof.
  intros Hz Hlt. destruct (Z.eq_dec z 0) as [->|Hne]; [vm_compute; reflexivity|].
  assert (Hz53 : 0 < z < 2 ^ 53) by lia.
  assert (Hlim : 0 <= z < seconds_limit).
  { unfold seconds_limit. change (2 ^ 53) with 9007199254740992 in Hlt. lia. }
  destruct (total_seconds_whole z Hz53) as (x & Hx & Hix).
  apply (srt_timestamp_eq (VInt z) w false
           (Timedelta (z / 86400) (z mod 86400) 0) x).
  - cbn [lt_zero]. destruct (Z.ltb_spec z 0); [lia|reflexivity].
  - apply timedelta_int_eq; assumption.
  - exact Hx.
  - apply float_round_int, mul_1000_int; [lia|assumption|assumption].
Qed.

Lemma mod_3600_60 n : n mod 3600 mod 60 = n mod 60.
Proof.
  rewrite (Z.div_mod n 3600) at 2 by lia.
  replace (3600 * (n / 3600) + n mod 3600)
    with (n mod 3600 + 60 * (n / 3600) * 60) by lia.
  rewrite Z.mod_add by lia. reflexivity.
Qed.

(** The clock of a whole number of seconds. *)
Lemma clock_whole n :
  clock (1000 * n)
  = format_0d 2 (n / 3600) ++ lit ":" ++ format_0d 2 (n mod 3600 / 60) ++ lit ":"
    ++ format_0d 2 (n mod 60) ++ lit ",000".
Proof.
  unfold clock.
  assert (E1 : 1000 * n / (3600 * 1000) = n / 3600)
    by (rewrite (Z.mul_comm 3600 1000); apply Z.div_mul_cancel_l; lia).
  assert (E2 : (1000 * n) mod (3600 * 1000) = 1000 * (n mod 3600))
    by (rewrite (Z.mul_comm 3600 1000); apply Z.mul_mod_distr_l; lia).
  rewrite E1, E2.
  assert (E3 : 1000 * (n mod 3600) / (60 * 1000) = n mod 3600 / 60)
    by (rewrite (Z.mul_comm 60 1000); apply Z.div_mul_cancel_l; lia).
  assert (E4 : (1000 * (n mod 3600)) mod (60 * 1000) = 1000 * (n mod 60)).
  { rewrite (Z.mul_comm 60 1000), Z.mul_mod_distr_l by lia.
    rewrite mod_3600_60. reflexivity. }
  rewrite E3, E4.
  rewrite (Z.mul_comm 1000 (n mod 60)), Z.div_mul, Z.mod_mul by lia.
  reflexivity.
Qed.




(** A whole float has no fraction: [timedelta] takes it as the int. *)
Lemma timedelta_whole_float m e z :
  0 < z < 2 ^ 53 -> float_is_int z (S754_finite false m e) ->
  timedelta_of_seconds (VFloat (S754_finite false m e))
  = timedelta_of_seconds (VInt z).
Proof.
  intros Hz Hv.
  assert (Hparts : exists ip,
            modf (f_add (S754_finite false m e) (float_of_int 0))
            = (S754_zero false, ip) /\ int_of_float ip = Ok z).
  { change (f_add (S754_finite false m e) (float_of_int 0))
      with (S754_finite false m e).
    unfold modf. destruct (Z.leb_spec 0 e) as [He|He].
    - eexists. split; [reflexivity|]. apply int_of_float_int; exact Hv.
    - cbn [float_is_int] in Hv.
      rewrite Z.max_l, Z.max_r in Hv by lia. change (2 ^ 0) with 1 in Hv.
      rewrite Z.mul_1_r in Hv.
      assert (Hp : 0 < 2 ^ (- e)) by (apply Z.pow_pos_nonneg; lia).
      rewrite Z.land_ones, Z.shiftr_div_pow2 by lia.
      rewrite Hv, Z.mod_mul, Z.div_mul by lia.
      eexists. split; [reflexivity|].
      apply (float_of_parts_int false z). lia. }
  destruct Hparts as (ip & Hmodf & Hip).
  rewrite (timedelta_float_unfold _ _ _ z 0 Hmodf Hip) by (vm_compute; reflexivity).
  unfold timedelta_of_seconds. cbn [res_bind]. rewrite usec_zero. reflexivity.
Qed.

(** X13: a whole number of seconds up to 9007199254740 (some 285000
    years) comes out exactly: hours, not wrapped at a day, then minutes and
    seconds, and [000] milliseconds; a negative int counts as [0]. *)
Theorem srt_timestamp_whole_seconds (z : Z) (w : world) :
  1000 * z < 2 ^ 53 ->
  srt_timestamp (VInt z) w
  = (Ok (format_0d 2 (Z.max 0 z / 3600) ++ lit ":"
         ++ format_0d 2 (Z.max 0 z mod 3600 / 60) ++ lit ":"
         ++ format_0d 2 (Z.max 0 z mod 60) ++ lit ",000"), w).
Proof.
  intros Hlt. rewrite <- clock_whole.
  destruct (Z_lt_le_dec z 0) as [Hneg|Hpos].
  - rewrite Z.max_l by lia.
    unfold srt_timestamp, bind, lift. cbn [lt_zero].
    destruct (Z.ltb_spec z 0); [|lia]. vm_compute. reflexivity.
  - rewrite Z.max_r by lia. apply srt_timestamp_int_clock; assumption.
Qed.

Lemma srt_timestamp_whole_seconds_witness :
  srt_timestamp (VInt 90061) empty_world
  = (Ok (format_0d 2 (Z.max 0 90061 / 3600) ++ lit ":"
         ++ format_0d 2 (Z.max 0 90061 mod 3600 / 60) ++ lit ":"
         ++ format_0d 2 (Z.max 0 90061 mod 60) ++ lit ",000"), empty_world).
Proof.
  apply (srt_timestamp_whole_seconds 90061 empty_world). reflexivity.
Defined.

(** X14: a float that is a whole number gives what the int gives: for
    every [z] from 0 up to [2^53], [srt_timestamp(float(z))] and
    [srt_timestamp(z)] are the same timestamp or the same exception. *)
Theorem srt_timestamp_int_or_float (z : Z) (w : world) :
  0 <= z < 2 ^ 53 ->
  srt_timestamp (VFloat (float_of_int z)) w = srt_timestamp (VInt z) w.
Proof.
  intros Hz. destruct (Z.eq_dec z 0) as [->|Hne]; [vm_compute; reflexivity|].
  destruct (float_of_int_int z ltac:(lia)) as (m & e & Hf & Hv).
  rewrite Hf. unfold srt_timestamp, bind, lift. cbn [lt_zero].
  change (f_ltb (S754_finite false m e) f_zero) with false.
  destruct (Z.ltb_spec z 0); [lia|].
  rewrite (timedelta_whole_float m e z ltac:(lia) Hv). reflexivity.
Qed.

Lemma srt_timestamp_int_or_float_witness :
  srt_timestamp (VFloat (float_of_int 86400000000000)) empty_world
  = srt_timestamp (VInt 86400000000000) empty_world.
Proof.
  apply (srt_timestamp_int_or_float 86400000000000 empty_world).
  lia.
Defined.



(** ** The default output path *)

Lemma rfind_from_spec c s : forall i found,
  ((c ∉ s) /\ rfind_from i c s found = found) \/
  (exists k : nat, s !! k = Some c /\ (c ∉ drop (S k) s) /\
                   rfind_from i c s found = i + Z.of_nat k).
Proof.
  induction s as [|a s IH]; intros i found; cbn [rfind_from].
  - left. split; [apply not_elem_of_nil|reflexivity].
  - destruct (IH (i + 1) (if (a =? c)%N then i else found))
      as [(Hno & Hr)|(k & Hk & Hno & Hr)].
    + destruct (N.eqb_spec a c) as [->|Hne].
      * right. exists 0%nat. split; [reflexivity|]. split; [exact Hno|lia].
      * left. split; [|exact Hr]. intros Hin.
        apply elem_of_cons in Hin as [Hin|Hin]; [congruence|exact (Hno Hin)].
    + right. exists (S k). split; [exact Hk|]. split; [exact Hno|lia].
Qed.

Lemma elem_of_drop_list {A} (x : A) n l : x ∈ drop n l -> x ∈ l.
Proof.
  intros H. rewrite <- (take_drop n l). apply elem_of_app. right. exact H.
Qed.

(** What [splitext] splits off is nothing, or one extension: a dot and
    after it neither a dot nor a slash. *)
Lemma splitext_ext p :
  snd (splitext p) = [] \/
  exists t, snd (splitext p) = 46%N :: t /\ (46%N ∉ t) /\ (47%N ∉ t).
Proof.
  unfold splitext, rfind.
  destruct (Z.ltb_spec (rfind_from 0 47 p (-1)) (rfind_from 0 46 p (-1)))
    as [Hlt|_]; [|left; reflexivity].
  destruct (existsb _ _); [|left; reflexivity].
  right. cbn [snd].
  destruct (rfind_from_spec 46 p 0 (-1)) as [(_ & Hd)|(k & Hk & Hno & Hd)].
  - exfalso. rewrite Hd in Hlt.
    destruct (rfind_from_spec 47 p 0 (-1)) as [(_ & Hs)|(j & _ & _ & Hs)];
      rewrite Hs in Hlt; lia.
  - rewrite Hd in *. replace (Z.to_nat (0 + Z.of_nat k)) with k by lia.
    exists (drop (S k) p). split; [apply drop_S; exact Hk|]. split; [exact Hno|].
    destruct (rfind_from_spec 47 p 0 (-1)) as [(Hnos & _)|(j & _ & Hnos & Hs)].
    + intros Hin. exact (Hnos (elem_of_drop_list _ _ _ Hin)).
    + rewrite Hs in Hlt. intros Hin. apply Hnos.
      replace (S k) with (S j + (S k - S j))%nat in Hin by lia.
      rewrite <- drop_drop in Hin. exact (elem_of_drop_list _ _ _ Hin).
Qed.

(** X16: without [-o], the output path is the input path with at most
    one extension taken off its end (a dot followed by neither a dot nor a
    slash, so the directory is kept), then the language tag if there is a
    language, then [.srt]. *)
Theorem default_output_beside_input (a : args) (r : transcription) :
  a_output a = None ->
  exists base ext tag,
    a_input a = base ++ ext /\
    (ext = [] \/ exists t, ext = 46%N :: t /\ (46%N ∉ t) /\ (47%N ∉ t)) /\
    output_path a r = base ++ tag ++ lit ".srt" /\
    (tag = [] \/ exists lang, lang <> [] /\ tag = lit "." ++ lang).
Proof.
  intros Hout.
  exists (fst (splitext (a_input a))), (snd (splitext (a_input a))).
  unfold output_path. rewrite Hout. cbn [py_or truthy str_of_opt].
  set (lang := if a_translate a then Some (lit "en")
               else py_or (a_language a) (tr_language r)).
  destruct lang as [[|c l]|] eqn:El; cbn [truthy str_of_opt].
  - exists []. split; [apply splitext_app|]. split; [apply splitext_ext|].
    split; [reflexivity|]. left. reflexivity.
  - exists (lit "." ++ c :: l). split; [apply splitext_app|].
    split; [apply splitext_ext|]. split; [rewrite <- app_assoc; reflexivity|].
    right. exists (c :: l). split; [discriminate|reflexivity].
  - exists []. split; [apply splitext_app|]. split; [apply splitext_ext|].
    split; [reflexivity|]. left. reflexivity.
Qed.

Lemma default_output_beside_input_witness :
  exists base ext tag,
    a_input args_sample = base ++ ext /\
    (ext = [] \/ exists t, ext = 46%N :: t /\ (46%N ∉ t) /\ (47%N ∉ t)) /\
    output_path args_sample sample_transcription = base ++ tag ++ lit ".srt" /\
    (tag = [] \/ exists lang, lang <> [] /\ tag = lit "." ++ lang).
Proof.
  apply (default_output_beside_input args_sample sample_transcription).
  reflexivity.
Defined.

(** ** Text that is clean already *)






(** ** What [main] asks of the engine *)

Ltac event_cases H :=
  repeat match type of H with
         | _ ∈ _ ++ _ => apply elem_of_app in H as [H|H]
         | _ ∈ _ :: _ => apply elem_of_cons in H as [H|H]
         | _ ∈ [] => apply elem_of_nil in H; destruct H
         end.

(** The events of [main] from the call of [write_srt] on are at most the
    last message. *)
Lemma main_write_events E segs path w :
  exists rest,
    events (snd ((write_srt E segs path ;;
                  print Stdout (lit "Done. Wrote subtitles to: " ++ path)) w))
    = events w ++ rest /\
    (rest = [] \/ rest = [done_message path]).
Proof.
  destruct (write_srt_outcome E segs path) as (r & t & H).
  unfold bind. rewrite H. destruct (can_open_w E path).
  - destruct r as [[]|e].
    + exists [done_message path]. split; [reflexivity|]. right. reflexivity.
    + exists []. split; [cbn [snd events]; rewrite app_nil_r; reflexivity|].
      left. reflexivity.
  - exists []. split; [cbn [snd events]; rewrite app_nil_r; reflexivity|].
    left. reflexivity.
Qed.

Section MainCalls.
Variable E : env.

(** X18: [main] loads no model and calls no engine for an input that is
    not a file. In every run, a model is loaded only after the input was
    found, and with the name and device of the command line; the engine is
    called only on the input path, only with the model that
    [whisper.load_model] returned, with the task [translate] under
    [--translate] and [transcribe] otherwise, and with the language of
    the command line. *)
Theorem main_engine_call_guarded (a : args) (w : world) :
  exists evs,
    events (snd (main E a w)) = events w ++ evs /\
    (forall name device, ELoadModel name device ∈ evs ->
       isfile E (a_input a) = true /\ name = a_model a /\ device = a_device a) /\
    (forall m p kw, ETranscribe m p kw ∈ evs ->
       isfile E p = true /\ p = a_input a /\
       load_model E (a_model a) (a_device a) = Ok m /\
       kw_task kw = (if a_translate a then lit "translate" else lit "transcribe") /\
       kw_language kw = a_language a).
Proof.
  destruct (isfile E (a_input a)) eqn:Hfile.
  2: { rewrite (main_not_found E a w Hfile). eexists. split; [reflexivity|].
       split; intros; event_cases H; discriminate H. }
  destruct (main_outcome E a w)
    as [(Hno & _)|[(e & _ & H)|[(m & e & Hload & _ & H)|[(m & r & Hload & _ & H)
        |(m & r & seg & segs & Hload & _ & _ & H)]]]]; [congruence| | | |];
    rewrite H; clear H.
  - eexists. split; [reflexivity|].
    split; intros; event_cases H; try discriminate H.
    injection H as -> ->. auto.
  - exists (call_events a m). split; [reflexivity|]. unfold call_events.
    split; intros; event_cases H; try discriminate H.
    + injection H as -> ->. auto.
    + injection H as -> -> ->. auto.
  - eexists. split; [reflexivity|]. unfold call_events.
    split; intros; event_cases H; try discriminate H.
    + injection H as -> ->. auto.
    + injection H as -> -> ->. auto.
  - destruct (main_write_events E (seg :: segs) (output_path a r)
                (logged (call_events a m) w)) as (rest & Hev & Hrest).
    exists (call_events a m ++ rest). split.
    { rewrite Hev. cbn [logged events]. rewrite app_assoc. reflexivity. }
    unfold call_events, done_message in *.
    split; intros; destruct Hrest as [-> | ->]; event_cases H; try discriminate H.
    + injection H as -> ->. auto.
    + injection H as -> ->. auto.
    + injection H as -> -> ->. auto.
    + injection H as -> -> ->. auto.
Qed.
End MainCalls.
